(** * young_platform.py: the request-signing and dispatch pipeline of YPClient

    A shallow embedding of [src/young_platform.py] and of the parts of the
    Python libraries it calls ([json], [hmac] with SHA-512, [requests]),
    followed by the properties of the client.

    Conventions.
    - A Python [str] is a Rocq [string] holding the UTF-8 bytes of the text:
      [s.encode()] is then the byte list of the string, concatenation is
      [++], and comparing two strings byte by byte is comparing them code
      point by code point, which is what Python does.
    - A Python [int] is a [Z].
    - A [dict] is an association list with unique keys, kept in insertion
      order (module [PyDict]).
    - An exception is a value of [Py.exn]; a computation that may raise
      returns a [Py.result]. *)

From Stdlib Require Import ZArith NArith List String Ascii Bool Lia.
From Stdlib Require Import DecimalString DecimalZ.
From Stdlib Require Import Sorting.Mergesort Sorting.Sorted Sorting.Permutation.
From Stdlib Require Import Orders.
Import ListNotations.
Open Scope string_scope.
Set Warnings "-register-all".

(** * Python values *)

Module Py.

(** The exception classes that the client can see. [JSONDecodeError] is a
    subclass of [ValueError]; [HTTPError] and [TransportError] stand for
    [requests.exceptions.HTTPError] and for whatever the HTTP collaborator
    raises by itself (neither is a [ValueError]). *)
Inductive exn : Type :=
| TypeError (msg : string)
| AttributeError (msg : string)
| JSONDecodeError (msg : string)
| HTTPError (status_code : Z)
| TransportError (msg : string).

Definition is_ValueError (e : exn) : bool :=
  match e with
  | JSONDecodeError _ => true
  | _ => false
  end.

Inductive result (A : Type) : Type :=
| Ok (a : A)
| Raise (e : exn).
Arguments Ok {A} a.
Arguments Raise {A} e.

(** Truth value of a [str], and of an [Optional[str]]: [None] and the
    empty string are false. *)
Definition truthy (s : string) : bool :=
  match s with
  | EmptyString => false
  | String _ _ => true
  end.

Definition truthy_opt (o : option string) : bool :=
  match o with
  | None => false
  | Some s => truthy s
  end.

(** [str(n)] for an [int]. *)
Definition str_int (n : Z) : string :=
  NilZero.string_of_int (Z.to_int n).

(** [s.encode()]: the UTF-8 bytes of [s]. *)
Definition encode (s : string) : list Z :=
  map (fun c => Z.of_N (N_of_ascii c)) (list_ascii_of_string s).

(** [s[:-1]]: [s] without its last character (the empty string stays
    empty). *)
Fixpoint drop_last (s : string) : string :=
  match s with
  | EmptyString => EmptyString
  | String c r =>
      match r with
      | EmptyString => EmptyString
      | String _ _ => String c (drop_last r)
      end
  end.

(** The lowercase hexadecimal digit of [n < 16]. *)
Definition hex_digit (n : N) : ascii :=
  if (n <? 10)%N then ascii_of_N (48 + n) else ascii_of_N (87 + n).

(** The double quote, and a way of writing a text that holds some: [dq]
    turns every apostrophe into a double quote. *)
Definition DQUOTE : ascii := ascii_of_N 34.

Fixpoint dq (s : string) : string :=
  match s with
  | EmptyString => EmptyString
  | String c r => String (if Ascii.eqb c "'" then DQUOTE else c) (dq r)
  end.

End Py.

(** * Dictionaries

    [PyDict.t V] is a [dict] with [str] keys: the list of its items in
    insertion order. Assigning to a key that is there keeps its place;
    assigning to a new key appends it. *)

Module PyDict.

Definition t (V : Type) : Type := list (string * V).

Definition empty {V} : t V := [].

Definition items {V} (d : t V) : list (string * V) := d.

Definition keys {V} (d : t V) : list string := map fst d.

(** [d.get(k)] *)
Fixpoint get {V} (k : string) (d : t V) : option V :=
  match d with
  | [] => None
  | (k', v) :: r => if String.eqb k k' then Some v else get k r
  end.

(** [k in d] *)
Definition mem {V} (k : string) (d : t V) : bool :=
  match get k d with
  | Some _ => true
  | None => false
  end.

(** [d[k] = v] *)
Fixpoint set {V} (k : string) (v : V) (d : t V) : t V :=
  match d with
  | [] => [(k, v)]
  | (k', v') :: r =>
      if String.eqb k k' then (k', v) :: r else (k', v') :: set k v r
  end.

(** [d.update(other)]: the items of [other] are assigned in their order. *)
Definition update {V} (d other : t V) : t V :=
  fold_left (fun acc kv => set (fst kv) (snd kv) acc) other d.

(** A list of items is a dictionary when no key comes twice. *)
Definition wf {V} (d : t V) : Prop := NoDup (keys d).

End PyDict.

(** * JSON: the values, [json.dumps] and [json.loads] *)

Module Json.

Import Py.

(** What [json.loads] returns and [json.dumps] accepts. [Float r] is a
    float given by a decimal literal [r] that denotes it: for a float that
    Python wrote (with [repr], [str] or [json.dumps]) this is its [repr],
    and the three floats that are not finite are ["nan"], ["inf"] and
    ["-inf"]. [Obj d] is a [dict] with [str] keys. *)
Inductive value : Type :=
| Null
| Bool (b : bool)
| Int (n : Z)
| Float (r : string)
| Str (s : string)
| Arr (l : list value)
| Obj (d : PyDict.t value).

(** ** Code points and UTF-8 *)

(** The code points of a text, from its UTF-8 bytes. A byte that does not
    start a complete sequence is passed as it is. *)
Fixpoint utf8_decode (bs : list N) : list N :=
  match bs with
  | [] => []
  | b0 :: r0 =>
      if (b0 <? 192)%N then b0 :: utf8_decode r0
      else if (b0 <? 224)%N then
        match r0 with
        | b1 :: r1 => ((b0 - 192) * 64 + b1 mod 64)%N :: utf8_decode r1
        | _ => b0 :: utf8_decode r0
        end
      else if (b0 <? 240)%N then
        match r0 with
        | b1 :: b2 :: r2 =>
            ((b0 - 224) * 4096 + (b1 mod 64) * 64 + b2 mod 64)%N
              :: utf8_decode r2
        | _ => b0 :: utf8_decode r0
        end
      else
        match r0 with
        | b1 :: b2 :: b3 :: r3 =>
            ((b0 - 240) * 262144 + (b1 mod 64) * 4096
             + (b2 mod 64) * 64 + b3 mod 64)%N
              :: utf8_decode r3
        | _ => b0 :: utf8_decode r0
        end
  end.

(** The UTF-8 bytes of one code point. *)
Definition utf8_encode (cp : N) : list N :=
  if (cp <? 128)%N then [cp]
  else if (cp <? 2048)%N then [192 + cp / 64; 128 + cp mod 64]%N
  else if (cp <? 65536)%N then
    [224 + cp / 4096; 128 + (cp / 64) mod 64; 128 + cp mod 64]%N
  else
    [240 + cp / 262144; 128 + (cp / 4096) mod 64;
     128 + (cp / 64) mod 64; 128 + cp mod 64]%N.

Definition code_points (s : string) : list N :=
  utf8_decode (map N_of_ascii (list_ascii_of_string s)).

Definition of_bytes (bs : list N) : string :=
  string_of_list_ascii (map ascii_of_N bs).

(** ** Hexadecimal digits *)

(** [format(n, '04x')] for [n < 65536]. *)
Definition hex4 (n : N) : string :=
  String (hex_digit ((n / 4096) mod 16))
    (String (hex_digit ((n / 256) mod 16))
       (String (hex_digit ((n / 16) mod 16))
          (String (hex_digit (n mod 16)) EmptyString))).

Definition hex_value (c : ascii) : option N :=
  let n := N_of_ascii c in
  if (48 <=? n)%N && (n <=? 57)%N then Some (n - 48)%N
  else if (97 <=? n)%N && (n <=? 102)%N then Some (n - 87)%N
  else if (65 <=? n)%N && (n <=? 70)%N then Some (n - 55)%N
  else None.

(** The value of the four hexadecimal digits that start [s], and what
    comes after them. *)
Definition decode_uXXXX (s : string) : option (N * string) :=
  match s with
  | String a (String b (String c (String d r))) =>
      match hex_value a, hex_value b, hex_value c, hex_value d with
      | Some x, Some y, Some z, Some w =>
          Some (x * 4096 + y * 256 + z * 16 + w, r)%N
      | _, _, _, _ => None
      end
  | _ => None
  end.

(** ** [json.dumps] *)

(** The escape of one code point ([ensure_ascii] is on): backslash and the
    double quote, the short escapes of the control characters, the
    characters from space to tilde as they are, [\uXXXX] for the rest, as
    a surrogate pair above the basic plane. *)
Definition escape_char (cp : N) : string :=
  if (cp =? 92)%N then "\\"
  else if (cp =? 34)%N then String "\" (String DQUOTE EmptyString)
  else if (cp =? 8)%N then "\b"
  else if (cp =? 12)%N then "\f"
  else if (cp =? 10)%N then "\n"
  else if (cp =? 13)%N then "\r"
  else if (cp =? 9)%N then "\t"
  else if (32 <=? cp)%N && (cp <=? 126)%N then
    String (ascii_of_N cp) EmptyString
  else if (cp <? 65536)%N then "\u" ++ hex4 cp
  else
    let n := (cp - 65536)%N in
    "\u" ++ hex4 (55296 + (n / 1024) mod 1024)
      ++ "\u" ++ hex4 (56320 + n mod 1024).

(** [encode_basestring_ascii] *)
Definition encode_basestring_ascii (s : string) : string :=
  String DQUOTE
    (String.concat EmptyString (map escape_char (code_points s))
       ++ String DQUOTE EmptyString).

(** [float.__repr__], with the names JSON gives to the floats that are not
    finite. *)
Definition float_repr (r : string) : string :=
  if String.eqb r "nan" then "NaN"
  else if String.eqb r "inf" then "Infinity"
  else if String.eqb r "-inf" then "-Infinity"
  else r.

(** [json.dumps(v)] with the default separators. *)
Fixpoint dumps (v : value) : string :=
  match v with
  | Null => "null"
  | Bool true => "true"
  | Bool false => "false"
  | Int n => str_int n
  | Float r => float_repr r
  | Str s => encode_basestring_ascii s
  | Arr l => "[" ++ String.concat ", " (map dumps l) ++ "]"
  | Obj d =>
      "{"
        ++ String.concat ", "
             (map (fun kv =>
                     match kv with
                     | (k, x) => encode_basestring_ascii k ++ ": " ++ dumps x
                     end) d)
        ++ "}"
  end.

(** ** [json.loads] *)

Definition is_ws (c : ascii) : bool :=
  Ascii.eqb c " " || Ascii.eqb c (ascii_of_N 9)
  || Ascii.eqb c (ascii_of_N 10) || Ascii.eqb c (ascii_of_N 13).

Fixpoint skip_ws (s : string) : string :=
  match s with
  | EmptyString => EmptyString
  | String c r => if is_ws c then skip_ws r else s
  end.

Definition is_digit (c : ascii) : bool :=
  let n := N_of_ascii c in (48 <=? n)%N && (n <=? 57)%N.

(** The digits that start [s], and what comes after them. *)
Fixpoint span_digits (s : string) : string * string :=
  match s with
  | EmptyString => (EmptyString, EmptyString)
  | String c r =>
      if is_digit c then
        let (ds, rest) := span_digits r in (String c ds, rest)
      else (EmptyString, s)
  end.

(** The character a short escape stands for. *)
Definition backslash (c : ascii) : option ascii :=
  if Ascii.eqb c DQUOTE then Some DQUOTE
  else if Ascii.eqb c "\" then Some "\"%char
  else if Ascii.eqb c "/" then Some "/"%char
  else if Ascii.eqb c "b" then Some (ascii_of_N 8)
  else if Ascii.eqb c "f" then Some (ascii_of_N 12)
  else if Ascii.eqb c "n" then Some (ascii_of_N 10)
  else if Ascii.eqb c "r" then Some (ascii_of_N 13)
  else if Ascii.eqb c "t" then Some (ascii_of_N 9)
  else None.

(** [s] after the character [c] that starts it. *)
Definition expect (c : ascii) (s : string) : option string :=
  match s with
  | String x r => if Ascii.eqb x c then Some r else None
  | EmptyString => None
  end.

(** The second half of a surrogate pair, when [s] starts with one: a
    [\uXXXX] from DC00 to DFFF. *)
Definition low_surrogate (s : string) : option (N * string) :=
  match expect "\" s with
  | Some s1 =>
      match expect "u" s1 with
      | Some s2 =>
          match decode_uXXXX s2 with
          | Some (uni2, r) =>
              if (56320 <=? uni2)%N && (uni2 <=? 57343)%N
              then Some (uni2, r) else None
          | None => None
          end
      | None => None
      end
  | None => None
  end.

(** [scanstring] in strict mode, from just after the opening quote: the
    text of the string and what comes after its closing quote. *)
Fixpoint scanstring (fuel : nat) (s : string) : option (string * string) :=
  match fuel with
  | O => None
  | S fuel' =>
      match s with
      | EmptyString => None
      | String c r =>
          if Ascii.eqb c DQUOTE then Some (EmptyString, r)
          else if Ascii.eqb c "\" then
            match r with
            | EmptyString => None
            | String e r1 =>
                if Ascii.eqb e "u" then
                  match decode_uXXXX r1 with
                  | None => None
                  | Some (uni, r2) =>
                      let single :=
                        match scanstring fuel' r2 with
                        | Some (t, rest) =>
                            Some (of_bytes (utf8_encode uni) ++ t, rest)
                        | None => None
                        end in
                      if (55296 <=? uni)%N && (uni <=? 56319)%N then
                        match low_surrogate r2 with
                        | Some (uni2, r4) =>
                            let cp :=
                              (65536 + (uni - 55296) * 1024
                               + (uni2 - 56320))%N in
                            match scanstring fuel' r4 with
                            | Some (t, rest) =>
                                Some (of_bytes (utf8_encode cp) ++ t, rest)
                            | None => None
                            end
                        | None => single
                        end
                      else single
                  end
                else
                  match backslash e with
                  | None => None
                  | Some x =>
                      match scanstring fuel' r1 with
                      | Some (t, rest) => Some (String x t, rest)
                      | None => None
                      end
                  end
            end
          else if (N_of_ascii c <? 32)%N then None
          else
            match scanstring fuel' r with
            | Some (t, rest) => Some (String c t, rest)
            | None => None
            end
      end
  end.

(** The parts of a number, as the scanner matches them: a sign, an
    integer part with no leading zero, then a fraction and an exponent when
    they are complete. Each returns the part and what comes after it. *)
Definition take_sign (s : string) : string * string :=
  match expect "-" s with
  | Some r => ("-", r)
  | None => (EmptyString, s)
  end.

Definition take_integer (s : string) : option (string * string) :=
  match s with
  | EmptyString => None
  | String c r =>
      if is_digit c then
        Some (if Ascii.eqb c "0" then ("0", r) else span_digits s)
      else None
  end.

Definition take_frac (s : string) : string * string :=
  match expect "." s with
  | Some r =>
      match span_digits r with
      | (EmptyString, _) => (EmptyString, s)
      | (ds, rest) => ("." ++ ds, rest)
      end
  | None => (EmptyString, s)
  end.

Definition take_exp (s : string) : string * string :=
  match s with
  | EmptyString => (EmptyString, s)
  | String e r =>
      if Ascii.eqb e "e" || Ascii.eqb e "E" then
        let (esign, r') :=
          match expect "+" r with
          | Some r' => ("+", r')
          | None =>
              match expect "-" r with
              | Some r' => ("-", r')
              | None => (EmptyString, r)
              end
          end in
        match span_digits r' with
        | (EmptyString, _) => (EmptyString, s)
        | (ds, rest) => (String e (esign ++ ds), rest)
        end
      else (EmptyString, s)
  end.

(** A number: with neither fraction nor exponent it is an [int]. *)
Definition match_number (s : string) : option (value * string) :=
  let (sign, s1) := take_sign s in
  match take_integer s1 with
  | None => None
  | Some (integer, s2) =>
      let (frac, s3) := take_frac s2 in
      let (exp, s4) := take_exp s3 in
      match frac, exp with
      | EmptyString, EmptyString =>
          match NilZero.int_of_string (sign ++ integer) with
          | Some i => Some (Int (Z.of_int i), s4)
          | None => None
          end
      | _, _ => Some (Float (sign ++ integer ++ frac ++ exp), s4)
      end
  end.

(** [s] without the [n] characters that start it. *)
Fixpoint skipn_str (n : nat) (s : string) : string :=
  match n, s with
  | O, _ => s
  | S n', String _ r => skipn_str n' r
  | S _, EmptyString => EmptyString
  end.

Definition literal (word : string) (v : value) (s : string)
  : option (value * string) :=
  if String.prefix word s then Some (v, skipn_str (String.length word) s)
  else None.

Definition first_of {A} (x y : option A) : option A :=
  match x with
  | Some _ => x
  | None => y
  end.

(** The scanner. [parse_members] reads the members of an object from just
    after the opening quote of a key, [parse_elements] the elements of an
    array from the start of an element. Every call reads a text that is
    no longer than the one before and shorter than the one two calls
    before, so [fuel] twice the length of the text is never used up. *)
Fixpoint parse_value (fuel : nat) (s : string) : option (value * string) :=
  match fuel with
  | O => None
  | S fuel' =>
      match s with
      | EmptyString => None
      | String c r =>
          if Ascii.eqb c DQUOTE then
            match scanstring (String.length r) r with
            | Some (t, rest) => Some (Str t, rest)
            | None => None
            end
          else if Ascii.eqb c "{" then
            match skip_ws r with
            | String c1 r1 =>
                if Ascii.eqb c1 "}" then Some (Obj PyDict.empty, r1)
                else if Ascii.eqb c1 DQUOTE then
                  parse_members fuel' r1 PyDict.empty
                else None
            | EmptyString => None
            end
          else if Ascii.eqb c "[" then
            match skip_ws r with
            | String c1 r1 =>
                if Ascii.eqb c1 "]" then Some (Arr [], r1)
                else parse_elements fuel' (String c1 r1) []
            | EmptyString => None
            end
          else
            first_of (literal "null" Null s)
              (first_of (literal "true" (Bool true) s)
                 (first_of (literal "false" (Bool false) s)
                    (first_of (match_number s)
                       (first_of (literal "NaN" (Float "nan") s)
                          (first_of (literal "Infinity" (Float "inf") s)
                             (literal "-Infinity" (Float "-inf") s))))))
      end
  end

with parse_members (fuel : nat) (s : string) (acc : PyDict.t value)
  : option (value * string) :=
  match fuel with
  | O => None
  | S fuel' =>
      match scanstring (String.length s) s with
      | None => None
      | Some (key, s1) =>
          match expect ":" (skip_ws s1) with
          | Some s2 =>
              match parse_value fuel' (skip_ws s2) with
              | None => None
              | Some (v, s3) =>
                  let acc' := PyDict.set key v acc in
                  match skip_ws s3 with
                  | String c s4 =>
                      if Ascii.eqb c "}" then Some (Obj acc', s4)
                      else if Ascii.eqb c "," then
                        match skip_ws s4 with
                        | String q s5 =>
                            if Ascii.eqb q DQUOTE then
                              parse_members fuel' s5 acc'
                            else None
                        | EmptyString => None
                        end
                      else None
                  | EmptyString => None
                  end
              end
          | _ => None
          end
      end
  end

with parse_elements (fuel : nat) (s : string) (acc : list value)
  : option (value * string) :=
  match fuel with
  | O => None
  | S fuel' =>
      match parse_value fuel' s with
      | None => None
      | Some (v, s1) =>
          let acc' := (acc ++ [v])%list in
          match skip_ws s1 with
          | String c s2 =>
              if Ascii.eqb c "]" then Some (Arr acc', s2)
              else if Ascii.eqb c "," then
                parse_elements fuel' (skip_ws s2) acc'
              else None
          | EmptyString => None
          end
      end
  end.

(** [json.loads(s)]: one value, with nothing but white space around it;
    [None] stands for [JSONDecodeError]. *)
Definition loads (s : string) : option value :=
  match parse_value (2 * String.length s + 2) (skip_ws s) with
  | Some (v, rest) =>
      match skip_ws rest with
      | EmptyString => Some v
      | String _ _ => None
      end
  | None => None
  end.

End Json.


(** * SHA-512 (FIPS 180-4) on 64-bit words, and HMAC (RFC 2104)

    A word is a [Z] in [[0, 2^64)]; a byte is a [Z] in [[0, 256)]. *)

Module Sha512.

Local Open Scope Z_scope.
Local Open Scope list_scope.

Definition modulus : Z := 2 ^ 64.

Definition mask : Z := modulus - 1.

Definition add (x y : Z) : Z := (x + y) mod modulus.

Definition rotr (n x : Z) : Z :=
  Z.land (Z.lor (Z.shiftr x n) (Z.shiftl x (64 - n))) mask.

Definition shr (n x : Z) : Z := Z.shiftr x n.

Definition not64 (x : Z) : Z := Z.lxor x mask.

Definition Ch (x y z : Z) : Z :=
  Z.lxor (Z.land x y) (Z.land (not64 x) z).

Definition Maj (x y z : Z) : Z :=
  Z.lxor (Z.lxor (Z.land x y) (Z.land x z)) (Z.land y z).

Definition Sigma0 (x : Z) : Z :=
  Z.lxor (Z.lxor (rotr 28 x) (rotr 34 x)) (rotr 39 x).

Definition Sigma1 (x : Z) : Z :=
  Z.lxor (Z.lxor (rotr 14 x) (rotr 18 x)) (rotr 41 x).

Definition sigma0 (x : Z) : Z :=
  Z.lxor (Z.lxor (rotr 1 x) (rotr 8 x)) (shr 7 x).

Definition sigma1 (x : Z) : Z :=
  Z.lxor (Z.lxor (rotr 19 x) (rotr 61 x)) (shr 6 x).

Definition K : list Z :=
  [ 0x428a2f98d728ae22; 0x7137449123ef65cd; 0xb5c0fbcfec4d3b2f;
    0xe9b5dba58189dbbc; 0x3956c25bf348b538; 0x59f111f1b605d019;
    0x923f82a4af194f9b; 0xab1c5ed5da6d8118; 0xd807aa98a3030242;
    0x12835b0145706fbe; 0x243185be4ee4b28c; 0x550c7dc3d5ffb4e2;
    0x72be5d74f27b896f; 0x80deb1fe3b1696b1; 0x9bdc06a725c71235;
    0xc19bf174cf692694; 0xe49b69c19ef14ad2; 0xefbe4786384f25e3;
    0x0fc19dc68b8cd5b5; 0x240ca1cc77ac9c65; 0x2de92c6f592b0275;
    0x4a7484aa6ea6e483; 0x5cb0a9dcbd41fbd4; 0x76f988da831153b5;
    0x983e5152ee66dfab; 0xa831c66d2db43210; 0xb00327c898fb213f;
    0xbf597fc7beef0ee4; 0xc6e00bf33da88fc2; 0xd5a79147930aa725;
    0x06ca6351e003826f; 0x142929670a0e6e70; 0x27b70a8546d22ffc;
    0x2e1b21385c26c926; 0x4d2c6dfc5ac42aed; 0x53380d139d95b3df;
    0x650a73548baf63de; 0x766a0abb3c77b2a8; 0x81c2c92e47edaee6;
    0x92722c851482353b; 0xa2bfe8a14cf10364; 0xa81a664bbc423001;
    0xc24b8b70d0f89791; 0xc76c51a30654be30; 0xd192e819d6ef5218;
    0xd69906245565a910; 0xf40e35855771202a; 0x106aa07032bbd1b8;
    0x19a4c116b8d2d0c8; 0x1e376c085141ab53; 0x2748774cdf8eeb99;
    0x34b0bcb5e19b48a8; 0x391c0cb3c5c95a63; 0x4ed8aa4ae3418acb;
    0x5b9cca4f7763e373; 0x682e6ff3d6b2b8a3; 0x748f82ee5defb2fc;
    0x78a5636f43172f60; 0x84c87814a1f0ab72; 0x8cc702081a6439ec;
    0x90befffa23631e28; 0xa4506cebde82bde9; 0xbef9a3f7b2c67915;
    0xc67178f2e372532b; 0xca273eceea26619c; 0xd186b8c721c0c207;
    0xeada7dd6cde0eb1e; 0xf57d4f7fee6ed178; 0x06f067aa72176fba;
    0x0a637dc5a2c898a6; 0x113f9804bef90dae; 0x1b710b35131c471b;
    0x28db77f523047d84; 0x32caab7b40c72493; 0x3c9ebe0a15c9bebc;
    0x431d67c49c100d4c; 0x4cc5d4becb3e42b6; 0x597f299cfc657e2a;
    0x5fcb6fab3ad6faec; 0x6c44198c4a475817 ]%Z.

(** The working variables [a] to [h], and the hash value. *)
Record state : Type := State {
  sa : Z; sb : Z; sc : Z; sd : Z; se : Z; sf : Z; sg : Z; sh : Z
}.

Definition H0 : state :=
  State 0x6a09e667f3bcc908 0xbb67ae8584caa73b 0x3c6ef372fe94f82b
        0xa54ff53a5f1d36f1 0x510e527fade682d1 0x9b05688c2b3e6c1f
        0x1f83d9abfb41bd6b 0x5be0cd19137e2179.

(** The message with its padding: a one bit, zeros, and the length in
    bits on sixteen bytes. *)
Definition be_bytes (n : nat) (x : Z) : list Z :=
  map (fun i => (x / 256 ^ Z.of_nat i) mod 256) (rev (seq 0 n)).

Definition pad (msg : list Z) : list Z :=
  let len := Z.of_nat (List.length msg) in
  msg ++ [128] ++ repeat 0 (Z.to_nat ((111 - len) mod 128))
      ++ be_bytes 16 (8 * len).

(** The big-endian words of a block. *)
Definition be_word (bs : list Z) : Z :=
  fold_left (fun acc b => acc * 256 + b) bs 0.

Fixpoint words (n : nat) (bs : list Z) : list Z :=
  match n with
  | O => []
  | S n' => be_word (firstn 8 bs) :: words n' (skipn 8 bs)
  end.

(** The message schedule, latest word first: [n] more words after the
    sixteen of the block. *)
Fixpoint extend (n : nat) (w : list Z) : list Z :=
  match n with
  | O => w
  | S n' =>
      let x :=
        add (add (sigma1 (nth 1 w 0)) (nth 6 w 0))
            (add (sigma0 (nth 14 w 0)) (nth 15 w 0)) in
      extend n' (x :: w)
  end.

Definition schedule (block : list Z) : list Z :=
  rev (extend 64 (rev (words 16 block))).

Definition round (s : state) (kw : Z * Z) : state :=
  let (k, w) := kw in
  let T1 :=
    add (add (add (sh s) (Sigma1 (se s))) (Ch (se s) (sf s) (sg s)))
        (add k w) in
  let T2 := add (Sigma0 (sa s)) (Maj (sa s) (sb s) (sc s)) in
  State (add T1 T2) (sa s) (sb s) (sc s) (add (sd s) T1)
        (se s) (sf s) (sg s).

Definition compress (hv : state) (block : list Z) : state :=
  let s := fold_left round (combine K (schedule block)) hv in
  State (add (sa hv) (sa s)) (add (sb hv) (sb s)) (add (sc hv) (sc s))
        (add (sd hv) (sd s)) (add (se hv) (se s)) (add (sf hv) (sf s))
        (add (sg hv) (sg s)) (add (sh hv) (sh s)).

Fixpoint blocks (n : nat) (bs : list Z) (hv : state) : state :=
  match n with
  | O => hv
  | S n' => blocks n' (skipn 128 bs) (compress hv (firstn 128 bs))
  end.

(** [hashlib.sha512(msg).digest()] *)
Definition digest (msg : list Z) : list Z :=
  let p := pad msg in
  let hv := blocks (List.length p / 128)%nat p H0 in
  flat_map (be_bytes 8)
    [sa hv; sb hv; sc hv; sd hv; se hv; sf hv; sg hv; sh hv].

End Sha512.

Module Hmac.

Local Open Scope Z_scope.
Local Open Scope list_scope.

Definition block_size : nat := 128.

Definition xor_with (x : Z) (bs : list Z) : list Z :=
  map (fun b => Z.lxor b x) bs.

(** [hmac.new(key, msg, 'sha512').digest()] *)
Definition digest (key msg : list Z) : list Z :=
  let key1 :=
    if Nat.ltb block_size (List.length key) then Sha512.digest key else key in
  let key2 := key1 ++ repeat 0 (block_size - List.length key1)%nat in
  Sha512.digest
    (xor_with 0x5c key2 ++ Sha512.digest (xor_with 0x36 key2 ++ msg)).

Definition hex_byte (b : Z) : string :=
  String (Py.hex_digit (Z.to_N ((b / 16) mod 16)))
    (String (Py.hex_digit (Z.to_N (b mod 16))) EmptyString).

Definition hex (bs : list Z) : string :=
  String.concat EmptyString (map hex_byte bs).

(** [hmac.new(key, msg, 'sha512').hexdigest()] *)
Definition hexdigest (key msg : list Z) : string :=
  hex (digest key msg).

End Hmac.

(** * The part of [requests] that the client uses *)

Module Requests.

Import Py.

(** [requests.Request]. A header value is whatever was assigned to it
    ([None] included). *)
Record Request : Type := mkRequest {
  method : string;
  url : string;
  headers : PyDict.t (option string);
  data : option string;
  json : option Json.value;
  params : option (PyDict.t Json.value)
}.

(** The keyword arguments that the client passes to [Request]. *)
Record kwargs : Type := mkKwargs {
  kw_params : option (PyDict.t Json.value);
  kw_json : option Json.value
}.

Definition new_Request (method url : string) (kw : kwargs) : Request :=
  mkRequest method url PyDict.empty None (kw_json kw) (kw_params kw).

Record PreparedRequest : Type := mkPrepared {
  p_method : string;
  p_url : string;
  p_params : option (PyDict.t Json.value);
  p_headers : PyDict.t (option string);
  p_body : option string
}.

(** [prepare_body]: [data] when there is some, else the JSON text of
    [json] when it is given, else no body. *)
Definition prepare_body (data : option string) (json : option Json.value)
  : option string :=
  if truthy_opt data then data
  else
    match json with
    | Some j => Some (Json.dumps j)
    | None => None
    end.

(** [Request.prepare()]. The url and the query parameters are kept as
    they are written (the library checks and re-quotes the url and adds
    the headers of its own, [Content-Length] and a default
    [Content-Type]; none of this is read by the client). *)
Definition prepare (r : Request) : PreparedRequest :=
  mkPrepared (method r) (url r) (params r) (headers r)
             (prepare_body (data r) (json r)).

Record Response : Type := mkResponse {
  status_code : Z;
  content : string
}.

(** [Response.json()] *)
Definition Response_json (r : Response) : result Json.value :=
  match Json.loads (content r) with
  | Some v => Ok v
  | None => Raise (JSONDecodeError "Expecting value")
  end.

(** [Response.raise_for_status()] *)
Definition raise_for_status (r : Response) : result unit :=
  if ((400 <=? status_code r) && (status_code r <? 600))%Z
  then Raise (HTTPError (status_code r))
  else Ok tt.

(** The HTTP collaborator: what it answers to a request, given the
    requests it has been handed before. *)
Record Session : Type := mkSession {
  adapter : list PreparedRequest -> PreparedRequest -> result Response
}.

(** The world outside the client: the clock, as [int(time.time())] reads
    it during the call, and the requests handed to the HTTP collaborator
    so far, oldest first. *)
Record world : Type := mkWorld {
  clock : Z;
  wire : list PreparedRequest
}.

(** Computations that read the clock, call the collaborator and may
    raise. *)
Definition M (A : Type) : Type := world -> result A * world.

Definition ret {A} (a : A) : M A := fun w => (Ok a, w).

Definition raise {A} (e : exn) : M A := fun w => (Raise e, w).

Definition lift {A} (r : result A) : M A := fun w => (r, w).

Definition bind {A B} (m : M A) (k : A -> M B) : M B :=
  fun w =>
    match m w with
    | (Ok a, w') => k a w'
    | (Raise e, w') => (Raise e, w')
    end.

(** [int(time.time())] *)
Definition time_time : M Z := fun w => (Ok (clock w), w).

(** [Session.send(p)] *)
Definition send (s : Session) (p : PreparedRequest) : M Response :=
  fun w => (adapter s (wire w) p, mkWorld (clock w) (wire w ++ [p])%list).

End Requests.

Declare Scope py_scope.
Delimit Scope py_scope with py.
Notation "x <- m ;; k" := (Requests.bind m (fun x => k))
  (at level 61, m at next level, right associativity) : py_scope.

(** * Sorting the items of a dictionary by key

    [sorted(d.items())] compares the items as pairs. The keys of a
    dictionary differ from one another, so the key decides every comparison
    and the values are never compared. *)

Module ItemOrder <: TotalLeBool.

Definition t : Type := (string * Json.value)%type.

Definition leb (x y : t) : bool := String.leb (fst x) (fst y).

Theorem leb_total : forall x y, leb x y = true \/ leb y x = true.
Proof. intros x y. apply String.leb_total. Qed.

End ItemOrder.

Module ItemSort := Sort ItemOrder.

(** * The client *)

Module YP.

Import Py Requests.
Local Open Scope py_scope.

Definition VERSION : string := "v3/".

Record YPClient : Type := mkClient {
  _session : Session;
  _base_url : string;
  _api_key : option string;
  _api_secret : option string;
  _subaccount_name : option string
}.

(** [YPClient.__init__]: an argument that is not given takes its
    default. *)
Definition __init__ (session : Session) (base_url : option string)
           (api_key api_secret subaccount_name : option string) : YPClient :=
  mkClient session
           (match base_url with
            | Some u => u
            | None => "https://api.youngplatform.com/api/" ++ VERSION
            end)
           api_key api_secret subaccount_name.

Section Client.

(** [str] of a list or of a dictionary is their [repr], which no
    property here reads; it is left open. *)
Variable repr_container : Json.value -> string.

(** [str(v)] *)
Definition py_str (v : Json.value) : string :=
  match v with
  | Json.Null => "None"
  | Json.Bool true => "True"
  | Json.Bool false => "False"
  | Json.Int n => str_int n
  | Json.Float r => r
  | Json.Str s => s
  | Json.Arr _ | Json.Obj _ => repr_container v
  end.

(** Lines 46 to 51 of [_sign_request]: the two fixed keys, then the
    fields of the body. [body] is what [json.loads(prepared.body)]
    returned, when there is a body. *)
Definition signature_payload (ts : Z) (body : option (PyDict.t Json.value))
  : PyDict.t Json.value :=
  let signature_payload :=
    [("recvWindow", Json.Int 10); ("timestamp", Json.Int ts)] in
  match body with
  | Some b => PyDict.update signature_payload b
  | None => signature_payload
  end.

(** Line 55: the dictionary built from the sorted items. *)
Definition sorted_dict (payload : PyDict.t Json.value)
  : PyDict.t Json.value :=
  PyDict.update PyDict.empty (ItemSort.sort (PyDict.items payload)).

(** Lines 54 to 58: the text that is signed. Every key of the loop is a
    key of [sorted_dict], so the lookup finds it. *)
Definition signature_payload_ordered_str (payload : PyDict.t Json.value)
  : string :=
  let sorted_dict := sorted_dict payload in
  let signature_payload_ordered_str :=
    fold_left
      (fun acc key =>
         match PyDict.get key sorted_dict with
         | Some v => acc ++ key ++ "=" ++ py_str v ++ "&"
         | None => acc
         end)
      (PyDict.keys sorted_dict) EmptyString in
  drop_last signature_payload_ordered_str.

(** [_sign_request]. The request is changed in place by the source; here
    the changed request is returned. *)
Definition _sign_request (self : YPClient) (request : Request)
  : M Request :=
  ts <- time_time ;;
  let prepared := prepare request in
  payload <-
    (match p_body prepared with
     | Some body =>
         if truthy body then
           match Json.loads body with
           | Some (Json.Obj b) => ret (signature_payload ts (Some b))
           | Some _ =>
               raise (TypeError "the body is not a JSON object")
           | None => raise (JSONDecodeError "Expecting value")
           end
         else ret (signature_payload ts None)
     | None => ret (signature_payload ts None)
     end) ;;
  let signature_payload_ordered_str :=
    signature_payload_ordered_str payload in
  secret <-
    (match _api_secret self with
     | Some s => ret (encode s)
     | None =>
         raise (AttributeError
                  "'NoneType' object has no attribute 'encode'")
     end) ;;
  let signature :=
    Hmac.hexdigest secret (encode signature_payload_ordered_str) in
  let h := PyDict.set "content-Type" (Some "application/json")
                      (headers request) in
  let h := PyDict.set "apiKey" (_api_key self) h in
  let h := PyDict.set "hmac" (Some signature) h in
  ret (mkRequest (method request) (url request) h
                 (Some (Json.dumps (Json.Obj payload)))
                 (json request) (params request)).

(** [_process_response] *)
Definition _process_response (response : Response) : result Json.value :=
  match Response_json response with
  | Ok data => Ok data
  | Raise e =>
      if is_ValueError e then
        match raise_for_status response with
        | Raise e' => Raise e'
        | Ok _ => Raise e
        end
      else Raise e
  end.

(** [_request] *)
Definition _request (self : YPClient) (method path : string)
           (kw : kwargs) : M Json.value :=
  let request := new_Request method (_base_url self ++ path) kw in
  request <-
    (if truthy_opt (_api_key self) then _sign_request self request
     else ret request) ;;
  response <- send (_session self) (prepare request) ;;
  lift (_process_response response).

Definition _get (self : YPClient) (path : string)
           (params : option (PyDict.t Json.value)) : M Json.value :=
  _request self "GET" path (mkKwargs params None).

Definition _post (self : YPClient) (path : string)
           (params : option (PyDict.t Json.value)) : M Json.value :=
  _request self "POST" path
           (mkKwargs None (option_map Json.Obj params)).

Definition _delete (self : YPClient) (path : string)
           (params : option (PyDict.t Json.value)) : M Json.value :=
  _request self "DELETE" path
           (mkKwargs None (option_map Json.Obj params)).

(** ** Public methods *)

Definition get_markets (self : YPClient) : M Json.value :=
  _get self "markets" None.

Definition get_ticker (self : YPClient) (pair : string) : M Json.value :=
  _get self ("ticker?pair=" ++ pair) None.

Definition get_trades (self : YPClient) (pair : string) : M Json.value :=
  _get self ("trades?pair=" ++ pair) None.

(** [depth] is [None] when the caller leaves it out: it is then 10. *)
Definition get_orderbook (self : YPClient) (pair : string)
           (depth : option Z) : M Json.value :=
  let depth := match depth with Some d => d | None => 10%Z end in
  _get self ("orderbook?pair=" ++ pair ++ "&depth=" ++ str_int depth) None.

(** ** Methods that require authentication *)

(** The decorator: [fn] with a check of the key in front of it. *)
Definition authentication_required {Args A : Type}
           (fn : YPClient -> Args -> M A) : YPClient -> Args -> M A :=
  fun self args =>
    if negb (truthy_opt (_api_key self)) then
      raise (TypeError "You must be authenticated to use this method")
    else fn self args.

Definition get_wallet_balances : YPClient -> unit -> M Json.value :=
  authentication_required
    (fun self _ => _post self "balances" None).

Definition get_open_orders : YPClient -> string -> M Json.value :=
  authentication_required
    (fun self pair => _post self ("openorders?pair=" ++ pair) None).

(** [volume] and [rate] are the numbers the caller gives, an [int] or a
    [float]. *)
Definition place_market_order
  : YPClient -> string * string * string * Json.value -> M Json.value :=
  authentication_required
    (fun self '(trade, market, side, volume) =>
       _post self "placeOrder"
             (Some [("trade", Json.Str trade);
                    ("market", Json.Str market);
                    ("side", Json.Str side);
                    ("type", Json.Str "MARKET");
                    ("volume", volume)])).

Definition place_limit_order
  : YPClient -> string * string * string * Json.value * Json.value
    -> M Json.value :=
  authentication_required
    (fun self '(trade, market, side, volume, rate) =>
       _post self "placeOrder"
             (Some [("trade", Json.Str trade);
                    ("market", Json.Str market);
                    ("side", Json.Str side);
                    ("type", Json.Str "LIMIT");
                    ("volume", volume);
                    ("rate", rate)])).

Definition get_order_status : YPClient -> Z -> M Json.value :=
  authentication_required
    (fun self existing_order_id =>
       _post self ("orderbyid?orderId=" ++ str_int existing_order_id)
             None).

Definition cancel_order : YPClient -> string * Z -> M Json.value :=
  authentication_required
    (fun self '(side, orderId) =>
       _post self "cancelOrder"
             (Some [("side", Json.Str side);
                    ("orderId", Json.Int orderId)])).

End Client.

End YP.

(** * What the properties speak about *)

Module Obs.

Import Py Requests YP.

(** Keys in strictly ascending order. *)
Definition key_lt (x y : string * Json.value) : Prop :=
  String.ltb (fst x) (fst y) = true.

(** The object at the top of a value is a dictionary. *)
Definition top_wf (v : Json.value) : Prop :=
  match v with
  | Json.Obj d => PyDict.wf d
  | _ => True
  end.

(** The API key is configured: it is neither [None] nor empty, which is
    what [if self._api_key] and [if not self._api_key] test. *)
Definition key_configured (self : YPClient) : Prop :=
  truthy_opt (_api_key self) = true.

(** The API secret is present: it is not [None]. *)
Definition secret_present (self : YPClient) : Prop :=
  _api_secret self <> None.

(** The value of the [hmac] header, and whether the request carries one. *)
Definition hmac_header (p : PreparedRequest) : option (option string) :=
  PyDict.get "hmac" (p_headers p).

Definition signed (p : PreparedRequest) : bool :=
  PyDict.mem "hmac" (p_headers p).

(** Between the worlds [w] and [w'] the request [p], and no other, was
    handed to the HTTP collaborator. *)
Definition dispatched (w w' : world) (p : PreparedRequest) : Prop :=
  wire w' = (wire w ++ [p])%list.

(** Between [w] and [w'] nothing was handed to the HTTP collaborator. *)
Definition no_network_call (w w' : world) : Prop :=
  wire w' = wire w.

(** The fields of the body of a request, as the signer reads them: none
    when the prepared body is absent or empty, else the dictionary that the
    body parses to. *)
Definition body_fields (request : Request)
           (fields : option (PyDict.t Json.value)) : Prop :=
  match p_body (prepare request) with
  | Some text =>
      if truthy text then
        exists b, fields = Some b /\ Json.loads text = Some (Json.Obj b)
      else fields = None
  | None => fields = None
  end.

(** What a call returns once [p] has been handed to the HTTP collaborator:
    the answer of the collaborator, normalized. *)
Definition answer (self : YPClient) (w : world) (p : PreparedRequest)
  : result Json.value :=
  match adapter (_session self) (wire w) p with
  | Ok response => _process_response response
  | Raise e => Raise e
  end.

(** The world after [p] has been handed to the HTTP collaborator. *)
Definition after_send (w : world) (p : PreparedRequest) : world :=
  mkWorld (clock w) (wire w ++ [p])%list.

(** The status code of a response tells a failure, for
    [raise_for_status]. *)
Definition failure_status (r : Response) : bool :=
  ((400 <=? status_code r) && (status_code r <? 600))%Z.

Definition is_lower_hex (c : ascii) : bool :=
  let n := N_of_ascii c in
  ((48 <=? n) && (n <=? 57) || (97 <=? n) && (n <=? 102))%N.

Fixpoint all_chars (f : ascii -> bool) (s : string) : bool :=
  match s with
  | EmptyString => true
  | String c r => f c && all_chars f r
  end.

(** The body of [place_limit_order("BTC","EUR","BUY",1.5,20000)]. *)
Definition limit_order_body : PyDict.t Json.value :=
  [("trade", Json.Str "BTC"); ("market", Json.Str "EUR");
   ("side", Json.Str "BUY"); ("type", Json.Str "LIMIT");
   ("volume", Json.Float "1.5"); ("rate", Json.Int 20000)].

(** The two keys that the signer sets by itself. *)
Definition fixed_fields (ts : Z) : PyDict.t Json.value :=
  [("recvWindow", Json.Int 10); ("timestamp", Json.Int ts)].

Section WithRepr.

Variable repr_container : Json.value -> string.

(** One item of the signed text: [key=value]. *)
Definition item_str (kv : string * Json.value) : string :=
  fst kv ++ "=" ++ py_str repr_container (snd kv).

(** The text that is signed, as the specification words it: the items
    sorted by key, written [key=value] and joined by [&]. *)
Definition canonical_str (payload : PyDict.t Json.value) : string :=
  String.concat "&" (map item_str (ItemSort.sort payload)).

(** The request as the signer leaves it, for the secret [secret], the time
    [ts] and the body fields [fields]. *)
Definition signed_request (self : YPClient) (secret : string) (ts : Z)
           (fields : option (PyDict.t Json.value)) (request : Request)
  : Request :=
  let payload := signature_payload ts fields in
  let digest :=
    Hmac.hexdigest (encode secret) (encode (canonical_str payload)) in
  mkRequest (method request) (url request)
            (PyDict.set "hmac" (Some digest)
               (PyDict.set "apiKey" (_api_key self)
                  (PyDict.set "content-Type" (Some "application/json")
                     (headers request))))
            (Some (Json.dumps (Json.Obj payload)))
            (json request) (params request).

End WithRepr.

End Obs.

(** * Concrete clients and worlds, for the examples *)

Module Demo.

Import Py Requests YP.

(** No example has a list or a dictionary among the values it signs. *)
Definition repr_container (v : Json.value) : string := EmptyString.

(** An HTTP collaborator that answers every request the same way. *)
Definition server (status : Z) (body : string) : Session :=
  mkSession (fun _ _ => Ok (mkResponse status body)).

Definition exchange : Session := server 200 (dq "{'ok': true}").

Definition anonymous : YPClient := __init__ exchange None None None None.

Definition trader : YPClient :=
  __init__ exchange None (Some "KEY") (Some "secret") None.

Definition other_trader : YPClient :=
  __init__ exchange (Some "https://test.example/") (Some "OTHER")
           (Some "secret") None.

Definition no_secret : YPClient :=
  __init__ exchange None (Some "KEY") None None.

Definition empty_secret : YPClient :=
  __init__ exchange None (Some "KEY") (Some EmptyString) None.

Definition empty_key : YPClient :=
  __init__ exchange None (Some EmptyString) (Some "secret") None.

Definition noon : world := mkWorld 1700000000 [].

(** The requests that the examples build. *)
Definition markets_request : Request :=
  new_Request "GET" (_base_url trader ++ "markets") (mkKwargs None None).

Definition cancel_body : PyDict.t Json.value :=
  [("side", Json.Str "SELL"); ("orderId", Json.Int 42);
   ("timestamp", Json.Int 7)].

Definition cancel_request : Request :=
  new_Request "POST" (_base_url trader ++ "cancelOrder")
              (mkKwargs None (Some (Json.Obj cancel_body))).

Definition order_kwargs : kwargs :=
  mkKwargs None (Some (Json.Obj Obs.limit_order_body)).

Definition order_request (self : YPClient) (path : string) : Request :=
  new_Request "POST" (_base_url self ++ path) order_kwargs.

End Demo.

(** * Facts about strings *)

Module StrFacts.

Import Py.

Lemma append_nil_r (s : string) : s ++ EmptyString = s.
Proof. induction s as [|c s IH]; simpl; [reflexivity | now rewrite IH]. Qed.

Lemma append_assoc (a b c : string) : (a ++ b) ++ c = a ++ (b ++ c).
Proof. induction a as [|x a IH]; simpl; [reflexivity | now rewrite IH]. Qed.

Lemma concat_empty_cons (x : string) (l : list string) :
  String.concat EmptyString (x :: l) = x ++ String.concat EmptyString l.
Proof. destruct l; simpl; [now rewrite append_nil_r | reflexivity]. Qed.

Lemma drop_last_snoc (s : string) (c : ascii) :
  drop_last (s ++ String c EmptyString) = s.
Proof.
  induction s as [|x s IH]; simpl; [reflexivity|].
  rewrite IH. destruct s; reflexivity.
Qed.

Lemma ascii_compare_refl (a : ascii) : Ascii.compare a a = Eq.
Proof. unfold Ascii.compare. apply N.compare_refl. Qed.

Lemma compare_refl (s : string) : String.compare s s = Eq.
Proof.
  induction s as [|c s IH]; simpl; [reflexivity|].
  now rewrite ascii_compare_refl.
Qed.

Lemma ascii_compare_lt_trans (a b c : ascii) :
  Ascii.compare a b = Lt -> Ascii.compare b c = Lt -> Ascii.compare a c = Lt.
Proof.
  unfold Ascii.compare. rewrite !N.compare_lt_iff. apply N.lt_trans.
Qed.

(** The order of strings is transitive. *)
Lemma compare_lt_trans (a b c : string) :
  String.compare a b = Lt -> String.compare b c = Lt ->
  String.compare a c = Lt.
Proof.
  revert b c. induction a as [|x a IH]; intros [|y b] [|z c]; simpl;
    try discriminate; try reflexivity.
  destruct (Ascii.compare x y) eqn:Exy; try discriminate.
  - apply Ascii.compare_eq_iff in Exy. subst y.
    destruct (Ascii.compare x z) eqn:Exz; try discriminate; [|reflexivity].
    intros H1 H2. now apply IH with b.
  - intros _.
    destruct (Ascii.compare y z) eqn:Eyz; try discriminate.
    + apply Ascii.compare_eq_iff in Eyz. subst z. now rewrite Exy.
    + intros _. now rewrite (ascii_compare_lt_trans _ _ _ Exy Eyz).
Qed.

Lemma leb_trans (a b c : string) :
  String.leb a b = true -> String.leb b c = true -> String.leb a c = true.
Proof.
  unfold String.leb.
  destruct (String.compare a b) eqn:Eab; try discriminate;
    destruct (String.compare b c) eqn:Ebc; try discriminate; intros _ _.
  - apply String.compare_eq_iff in Eab, Ebc. subst.
    now rewrite compare_refl.
  - apply String.compare_eq_iff in Eab. subst. now rewrite Ebc.
  - apply String.compare_eq_iff in Ebc. subst. now rewrite Eab.
  - now rewrite (compare_lt_trans _ _ _ Eab Ebc).
Qed.

(** Below or equal and different is strictly below. *)
Lemma leb_neq_ltb (a b : string) :
  String.leb a b = true -> a <> b -> String.ltb a b = true.
Proof.
  unfold String.leb, String.ltb.
  destruct (String.compare a b) eqn:E; try discriminate; intros _ Hn;
    [|reflexivity].
  apply String.compare_eq_iff in E. contradiction.
Qed.

End StrFacts.

(** * Facts about dictionaries *)

Module PyDictFacts.

Import PyDict.

Section Facts.

Context {V : Type}.
Implicit Types (d other : t V) (k : string) (v : V).

Lemma get_None_not_In k d : get k d = None <-> ~ In k (keys d).
Proof.
  induction d as [|[k' v'] d IH]; simpl.
  - tauto.
  - destruct (String.eqb_spec k k') as [->|Hne].
    + split; [discriminate | intros H; exfalso; apply H; now left].
    + rewrite IH. split; [intros H [E|E]; [congruence | tauto] | tauto].
Qed.

Lemma get_In k v d : get k d = Some v -> In (k, v) d.
Proof.
  induction d as [|[k' v'] d IH]; simpl; [discriminate|].
  destruct (String.eqb_spec k k') as [->|Hne].
  - intros [= ->]. now left.
  - intros H. right. now apply IH.
Qed.

Lemma In_get k v d : wf d -> In (k, v) d -> get k d = Some v.
Proof.
  unfold wf. induction d as [|[k' v'] d IH]; simpl; [tauto|].
  intros Hnd [E|Hin]; inversion Hnd as [|? ? Hni Hnd']; subst.
  - injection E as -> ->. now rewrite String.eqb_refl.
  - destruct (String.eqb_spec k k') as [->|Hne]; [|now apply IH].
    exfalso. apply Hni. change k' with (fst (k', v)). now apply in_map.
Qed.

(** Assignment keeps the keys that are there, in their places, and
    appends a new one. *)
Lemma keys_set k v d :
  keys (set k v d) = if mem k d then keys d else (keys d ++ [k])%list.
Proof.
  unfold mem. induction d as [|[k' v'] d IH]; simpl; [reflexivity|].
  destruct (String.eqb_spec k k') as [->|Hne]; simpl; [reflexivity|].
  rewrite IH. now destruct (get k d).
Qed.

Lemma set_new k v d : get k d = None -> set k v d = (d ++ [(k, v)])%list.
Proof.
  induction d as [|[k' v'] d IH]; simpl; [reflexivity|].
  destruct (String.eqb_spec k k') as [->|Hne]; [discriminate|].
  intros H. now rewrite IH.
Qed.

Lemma wf_set k v d : wf d -> wf (set k v d).
Proof.
  unfold wf. intros Hnd. rewrite keys_set. unfold mem.
  destruct (get k d) eqn:E; [assumption|].
  apply get_None_not_In in E.
  apply NoDup_rev in Hnd. rewrite <- (rev_involutive (keys d ++ [k])).
  apply NoDup_rev. rewrite rev_app_distr. simpl. constructor; [|assumption].
  now rewrite <- in_rev.
Qed.

Lemma get_set_same k v d : get k (set k v d) = Some v.
Proof.
  induction d as [|[k' v'] d IH]; simpl.
  - now rewrite String.eqb_refl.
  - destruct (String.eqb_spec k k') as [->|Hne]; simpl.
    + now rewrite String.eqb_refl.
    + destruct (String.eqb_spec k k'); [contradiction | assumption].
Qed.

Lemma get_set_other k k' v d :
  k <> k' -> get k (set k' v d) = get k d.
Proof.
  intros Hne. induction d as [|[k2 v2] d IH]; simpl.
  - destruct (String.eqb_spec k k'); [contradiction | reflexivity].
  - destruct (String.eqb_spec k' k2) as [->|Hne2]; simpl.
    + destruct (String.eqb_spec k k2); [contradiction | reflexivity].
    + destruct (String.eqb_spec k k2); [reflexivity | assumption].
Qed.

Lemma wf_update d other : wf d -> wf (update d other).
Proof.
  unfold update. revert d.
  induction other as [|[k v] o IH]; simpl; intros d Hd; [assumption|].
  apply IH. now apply wf_set.
Qed.

(** What [update] leaves under a key: the value [other] gives it, the
    one it had otherwise. *)
Lemma get_update k d other :
  wf other ->
  get k (update d other) =
    match get k other with
    | Some v => Some v
    | None => get k d
    end.
Proof.
  unfold update, wf. revert d.
  induction other as [|[k' v'] o IH]; simpl; intros d Hnd; [reflexivity|].
  inversion Hnd as [|? ? Hni Hnd']; subst.
  rewrite IH by assumption.
  destruct (String.eqb_spec k k') as [->|Hne].
  - apply get_None_not_In in Hni. rewrite Hni. apply get_set_same.
  - rewrite get_set_other by assumption. reflexivity.
Qed.

(** Updating with keys that are all new appends the items. *)
Lemma update_disjoint d other :
  wf other -> (forall k, In k (keys other) -> get k d = None) ->
  update d other = (d ++ other)%list.
Proof.
  unfold update, wf. revert d.
  induction other as [|[k v] o IH]; simpl; intros d Hnd Hdis.
  - now rewrite app_nil_r.
  - inversion Hnd as [|? ? Hni Hnd']; subst.
    rewrite set_new by (apply Hdis; now left).
    rewrite IH; [now rewrite <- app_assoc | assumption |].
    intros k' Hk'. apply get_None_not_In. unfold keys.
    rewrite map_app. simpl. intros Hin. apply in_app_or in Hin.
    destruct Hin as [Hin|[<-|[]]].
    + assert (H : get k' d = None) by (apply Hdis; now right).
      now apply get_None_not_In in H.
    + contradiction.
Qed.

Lemma update_empty other : wf other -> update empty other = other.
Proof.
  intros H. rewrite update_disjoint; [reflexivity | assumption |].
  intros. reflexivity.
Qed.

End Facts.

End PyDictFacts.

(** * Facts about the sorted items *)

Module SortFacts.

Import PyDict Obs.

Lemma leb_transitive : Transitive (fun x y => is_true (ItemOrder.leb x y)).
Proof.
  intros x y z. unfold ItemOrder.leb, is_true. apply StrFacts.leb_trans.
Qed.

Lemma wf_Permutation (d d' : t Json.value) :
  Permutation d d' -> wf d -> wf d'.
Proof.
  unfold wf, keys. intros Hp Hnd.
  apply Permutation_NoDup with (l := map fst d); [|assumption].
  now apply Permutation_map.
Qed.

Lemma wf_sort (d : t Json.value) : wf d -> wf (ItemSort.sort d).
Proof. apply wf_Permutation, ItemSort.Permuted_sort. Qed.

Lemma strict_of_sorted (l : list (string * Json.value)) :
  StronglySorted (fun x y => is_true (ItemOrder.leb x y)) l ->
  NoDup (map fst l) -> StronglySorted key_lt l.
Proof.
  induction 1 as [|a l Hs IH Hall]; intros Hnd; constructor;
    inversion Hnd as [|? ? Hni Hnd']; subst.
  - now apply IH.
  - rewrite Forall_forall in *. intros x Hx.
    apply StrFacts.leb_neq_ltb; [now apply Hall|].
    intros E. apply Hni. rewrite E. now apply in_map.
Qed.

(** The sorted items of a dictionary have their keys in strictly
    ascending order. *)
Lemma sort_strict (d : t Json.value) :
  wf d -> StronglySorted key_lt (ItemSort.sort d).
Proof.
  intros Hd. apply strict_of_sorted.
  - apply ItemSort.StronglySorted_sort, leb_transitive.
  - now apply wf_sort.
Qed.

End SortFacts.

(** * Facts about the text that is signed *)

Module SigFacts.

Import Py PyDict YP Obs.

Section Signer.

Variable repr_container : Json.value -> string.

Local Abbreviation item_str := (item_str repr_container).

Lemma wf_signature_payload ts body :
  wf (signature_payload ts body).
Proof.
  assert (Hfix : wf [("recvWindow", Json.Int 10);
                     ("timestamp", Json.Int ts)]).
  { unfold wf. simpl. repeat constructor; simpl; intuition discriminate. }
  unfold signature_payload. destruct body; [|assumption].
  now apply PyDictFacts.wf_update.
Qed.

Lemma sorted_dict_sort (payload : t Json.value) :
  wf payload -> sorted_dict payload = ItemSort.sort payload.
Proof.
  intros H. unfold sorted_dict, items.
  apply PyDictFacts.update_empty. now apply SortFacts.wf_sort.
Qed.

(** The loop of lines 56 and 57 over the keys of a part [l'] of the
    dictionary [l]. *)
Lemma loop_items (l l' : t Json.value) (acc : string) :
  (forall k v, In (k, v) l' -> get k l = Some v) ->
  fold_left
    (fun acc key =>
       match get key l with
       | Some v => acc ++ key ++ "=" ++ py_str repr_container v ++ "&"
       | None => acc
       end) (keys l') acc
  = acc ++ String.concat EmptyString
             (map (fun kv => item_str kv ++ "&") l').
Proof.
  revert acc. induction l' as [|[k v] l' IH]; intros acc Hin.
  - simpl. now rewrite StrFacts.append_nil_r.
  - change (keys ((k, v) :: l')) with (k :: keys l').
    rewrite map_cons, StrFacts.concat_empty_cons.
    cbn [fold_left]. rewrite (Hin k v) by now left.
    rewrite IH by (intros; apply Hin; now right).
    unfold item_str. cbn [fst snd].
    now rewrite !StrFacts.append_assoc.
Qed.

Lemma concat_sep (l : list string) :
  l <> [] ->
  String.concat EmptyString (map (fun s => s ++ "&") l)
  = String.concat "&" l ++ "&".
Proof.
  induction l as [|a l IH]; [congruence|]. intros _.
  destruct l as [|b l].
  - reflexivity.
  - change (String.concat "&" (a :: b :: l))
      with (a ++ "&" ++ String.concat "&" (b :: l)).
    change (String.concat EmptyString (map (fun s => s ++ "&") (a :: b :: l)))
      with ((a ++ "&") ++ EmptyString ++
            String.concat EmptyString (map (fun s => s ++ "&") (b :: l))).
    rewrite IH by discriminate. simpl.
    now rewrite !StrFacts.append_assoc.
Qed.

(** Lines 54 to 58 write the sorted items as [key=value], with one [&]
    between two of them and none at the end. *)
Lemma signature_payload_ordered_str_spec (payload : t Json.value) :
  wf payload ->
  signature_payload_ordered_str repr_container payload
  = canonical_str repr_container payload.
Proof.
  intros Hwf. unfold signature_payload_ordered_str, canonical_str.
  rewrite sorted_dict_sort by assumption.
  rewrite loop_items
    by (intros k v; apply PyDictFacts.In_get; now apply SortFacts.wf_sort).
  simpl. rewrite <- map_map with (f := item_str) (g := fun s => s ++ "&").
  destruct (map item_str (ItemSort.sort payload)) eqn:E; [reflexivity|].
  rewrite concat_sep by discriminate.
  apply StrFacts.drop_last_snoc.
Qed.

End Signer.

End SigFacts.

(** * Facts about [json.loads] *)

Module JsonFacts.

Import Json Obs.

Ltac break_match :=
  match goal with
  | H : context [match ?x with _ => _ end] |- _ =>
      let E := fresh "E" in destruct x eqn:E
  end.

Lemma first_of_Some {A} (x y : option A) (r : A) :
  first_of x y = Some r -> x = Some r \/ y = Some r.
Proof. unfold first_of. destruct x; auto. Qed.

Lemma literal_top_wf word v s r rest :
  literal word v s = Some (r, rest) -> r = v.
Proof. unfold literal. destruct (prefix word s); congruence. Qed.

Lemma match_number_top_wf s v rest :
  match_number s = Some (v, rest) -> top_wf v.
Proof.
  unfold match_number. intros H.
  destruct (take_sign s) as [sign s1].
  destruct (take_integer s1) as [[integer s2]|]; [|discriminate].
  destruct (take_frac s2) as [frac s3].
  destruct (take_exp s3) as [exp s4].
  destruct frac, exp; try (injection H as <- _; exact I).
  destruct (NilZero.int_of_string _); [|discriminate].
  injection H as <- _. exact I.
Qed.

Lemma parse_top_wf (fuel : nat) :
  (forall s v rest, parse_value fuel s = Some (v, rest) -> top_wf v)
  /\ (forall s acc v rest,
        PyDict.wf acc -> parse_members fuel s acc = Some (v, rest) ->
        top_wf v)
  /\ (forall s acc v rest,
        parse_elements fuel s acc = Some (v, rest) -> top_wf v).
Proof.
  induction fuel as [|fuel (IHv & IHm & IHe)].
  - repeat split; intros; discriminate.
  - repeat split.
    + intros s v rest H. simpl in H.
      destruct s as [|c r]; [discriminate|].
      destruct (Ascii.eqb c Py.DQUOTE).
      { repeat break_match; try discriminate. injection H as <- _. exact I. }
      destruct (Ascii.eqb c "{").
      { destruct (skip_ws r) as [|c1 r1]; [discriminate|].
        destruct (Ascii.eqb c1 "}").
        - injection H as <- _. constructor.
        - destruct (Ascii.eqb c1 Py.DQUOTE); [|discriminate].
          eapply IHm; [|exact H]. constructor. }
      destruct (Ascii.eqb c "[").
      { destruct (skip_ws r) as [|c1 r1]; [discriminate|].
        destruct (Ascii.eqb c1 "]").
        - injection H as <- _. exact I.
        - eapply IHe. exact H. }
      repeat (apply first_of_Some in H; destruct H as [H|H]);
        first [ apply literal_top_wf in H; subst; exact I
              | eapply match_number_top_wf; eassumption ].
    + intros s acc v rest Hacc H. simpl in H.
      destruct (scanstring (String.length s) s) as [[key s1]|];
        [|discriminate].
      destruct (expect ":" (skip_ws s1)) as [s2|]; [|discriminate].
      destruct (parse_value fuel (skip_ws s2)) as [[x s3]|]; [|discriminate].
      destruct (skip_ws s3) as [|c s4]; [discriminate|].
      destruct (Ascii.eqb c "}").
      * injection H as <- _. simpl. now apply PyDictFacts.wf_set.
      * destruct (Ascii.eqb c ","); [|discriminate].
        destruct (skip_ws s4) as [|q s5]; [discriminate|].
        destruct (Ascii.eqb q Py.DQUOTE); [|discriminate].
        eapply IHm; [|exact H]. now apply PyDictFacts.wf_set.
    + intros s acc v rest H. simpl in H.
      destruct (parse_value fuel s) as [[x s1]|]; [|discriminate].
      destruct (skip_ws s1) as [|c s2]; [discriminate|].
      destruct (Ascii.eqb c "]").
      * injection H as <- _. exact I.
      * destruct (Ascii.eqb c ","); [|discriminate].
        eapply IHe. exact H.
Qed.

(** An object that [json.loads] returns has no key twice. *)
Lemma loads_obj_wf (s : string) (d : PyDict.t value) :
  loads s = Some (Obj d) -> PyDict.wf d.
Proof.
  unfold loads. intros H.
  destruct (parse_value _ _) as [[v rest]|] eqn:E; [|discriminate].
  destruct (skip_ws rest); [|discriminate].
  injection H as ->.
  exact (proj1 (parse_top_wf _) _ _ _ E).
Qed.

End JsonFacts.

(** * Facts about the digest *)

Module HexFacts.

Import Py Obs.

Lemma all_chars_app f a b :
  all_chars f (a ++ b) = all_chars f a && all_chars f b.
Proof.
  induction a as [|c a IH]; simpl; [reflexivity|].
  now rewrite IH, andb_assoc.
Qed.

Lemma length_append (a b : string) :
  String.length (a ++ b) = String.length a + String.length b.
Proof. induction a as [|c a IH]; simpl; [reflexivity | now rewrite IH]. Qed.

Lemma hex_digit_lower (n : N) :
  (n < 16)%N -> is_lower_hex (hex_digit n) = true.
Proof.
  intros H.
  assert (Hall : forallb (fun k => is_lower_hex (hex_digit (N.of_nat k)))
                         (seq 0 16) = true) by reflexivity.
  rewrite forallb_forall in Hall.
  rewrite <- (N2Nat.id n). apply Hall. apply in_seq. lia.
Qed.

Lemma hex_byte_lower (b : Z) :
  all_chars is_lower_hex (Hmac.hex_byte b) = true.
Proof.
  unfold Hmac.hex_byte. simpl.
  rewrite !hex_digit_lower; [reflexivity| |].
  - pose proof (Z.mod_pos_bound b 16). lia.
  - pose proof (Z.mod_pos_bound (b / 16) 16). lia.
Qed.

Lemma hex_lower (bs : list Z) :
  all_chars is_lower_hex (Hmac.hex bs) = true
  /\ String.length (Hmac.hex bs) = 2 * List.length bs.
Proof.
  unfold Hmac.hex. induction bs as [|b bs [IH1 IH2]]; [now split|].
  rewrite map_cons, StrFacts.concat_empty_cons.
  rewrite all_chars_app, length_append, hex_byte_lower, IH1, IH2.
  split; [reflexivity|]. simpl. lia.
Qed.

Lemma sha512_digest_length (msg : list Z) :
  List.length (Sha512.digest msg) = 64.
Proof. reflexivity. Qed.

(** The digest that the signer writes: 128 lowercase hexadecimal digits. *)
Lemma hexdigest_lower (key msg : list Z) :
  String.length (Hmac.hexdigest key msg) = 128
  /\ all_chars is_lower_hex (Hmac.hexdigest key msg) = true.
Proof.
  unfold Hmac.hexdigest. destruct (hex_lower (Hmac.digest key msg)) as [H1 H2].
  split; [|assumption]. rewrite H2. unfold Hmac.digest.
  now rewrite sha512_digest_length.
Qed.

End HexFacts.

(** * Facts about the signer and the dispatcher *)

Module ClientFacts.

Import Py Requests YP Obs.

Lemma body_fields_fun request f1 f2 :
  body_fields request f1 -> body_fields request f2 -> f1 = f2.
Proof.
  unfold body_fields. destruct (p_body (prepare request)) as [text|];
    [|congruence].
  destruct (truthy text); [|congruence].
  intros (b1 & -> & H1) (b2 & -> & H2). congruence.
Qed.

Lemma body_fields_wf request b :
  body_fields request (Some b) -> PyDict.wf b.
Proof.
  unfold body_fields. destruct (p_body (prepare request)) as [text|];
    [|discriminate].
  destruct (truthy text); [|discriminate].
  intros (b' & [= <-] & H). now apply JsonFacts.loads_obj_wf in H.
Qed.

(** A request made by the client has the body that its [json] argument
    gives it. *)
Lemma p_body_new_Request method url kw :
  p_body (prepare (new_Request method url kw))
  = option_map Json.dumps (kw_json kw).
Proof. unfold prepare, new_Request, prepare_body. simpl. now destruct kw_json. Qed.

Lemma body_fields_no_json method url kw :
  kw_json kw = None -> body_fields (new_Request method url kw) None.
Proof.
  intros H. unfold body_fields. rewrite p_body_new_Request, H. reflexivity.
Qed.

Lemma loads_truthy s v : Json.loads s = Some v -> truthy s = true.
Proof. destruct s; [discriminate | reflexivity]. Qed.

(** The body fields of a request made with a [json] argument that parses
    back to an object. *)
Lemma body_fields_json method url kw j b :
  kw_json kw = Some j ->
  Json.loads (Json.dumps j) = Some (Json.Obj b) ->
  body_fields (new_Request method url kw) (Some b).
Proof.
  intros Hj Hl. unfold body_fields. rewrite p_body_new_Request, Hj.
  cbn [option_map]. rewrite (loads_truthy _ _ Hl). eauto.
Qed.

Section Facts.

Variable repr_container : Json.value -> string.

Local Abbreviation _sign_request := (_sign_request repr_container).
Local Abbreviation _request := (_request repr_container).
Local Abbreviation signed_request := (signed_request repr_container).

(** The signer makes no network call and leaves the world as it is. *)
Lemma sign_world self request w :
  snd (_sign_request self request w) = w.
Proof.
  unfold YP._sign_request, bind, time_time, ret, raise.
  destruct (p_body (prepare request)) as [text|]; simpl.
  - destruct (truthy text); simpl.
    + destruct (Json.loads text) as [[]|]; simpl; try reflexivity.
      destruct (_api_secret self); reflexivity.
    + destruct (_api_secret self); reflexivity.
  - destruct (_api_secret self); reflexivity.
Qed.

(** With a secret and a body that is absent or a JSON object, the signer
    returns the signed request. *)
Lemma sign_ok self request w secret fields :
  _api_secret self = Some secret -> body_fields request fields ->
  _sign_request self request w
  = (Ok (signed_request self secret (clock w) fields request), w).
Proof.
  intros Hs Hb. unfold body_fields in Hb.
  unfold YP._sign_request, bind, time_time, ret, raise, Obs.signed_request.
  assert (Hstr : forall f,
             signature_payload_ordered_str repr_container
               (signature_payload (clock w) f)
             = canonical_str repr_container (signature_payload (clock w) f))
    by (intros; apply SigFacts.signature_payload_ordered_str_spec,
                      SigFacts.wf_signature_payload).
  destruct (p_body (prepare request)) as [text|].
  - destruct (truthy text).
    + destruct Hb as (b & -> & ->). rewrite Hs, Hstr. reflexivity.
    + subst fields. rewrite Hs, Hstr. reflexivity.
  - subst fields. rewrite Hs, Hstr. reflexivity.
Qed.

(** Without a secret the signer raises. *)
Lemma sign_no_secret self request w :
  _api_secret self = None ->
  exists e, _sign_request self request w = (Raise e, w).
Proof.
  intros Hs.
  unfold YP._sign_request, bind, time_time, ret, raise. rewrite Hs.
  destruct (p_body (prepare request)) as [text|]; [|eauto].
  destruct (truthy text); [|eauto].
  destruct (Json.loads text) as [[]|]; eauto.
Qed.

(** When the signer returns, there was a secret and the body was absent or
    a JSON object. *)
Lemma sign_inv self request w r w' :
  _sign_request self request w = (Ok r, w') ->
  w' = w /\
  exists secret fields,
    _api_secret self = Some secret /\ body_fields request fields /\
    r = signed_request self secret (clock w) fields request.
Proof.
  intros H.
  assert (Hw : w' = w)
    by (rewrite <- (sign_world self request w), H; reflexivity).
  split; [assumption|]. subst w'.
  destruct (_api_secret self) as [secret|] eqn:Hs.
  2:{ destruct (sign_no_secret self request w Hs) as [e He]. congruence. }
  exists secret.
  assert (Hf : exists fields, body_fields request fields).
  { unfold body_fields.
    revert H. unfold YP._sign_request, bind, time_time, ret, raise.
    destruct (p_body (prepare request)) as [text|]; [|eauto].
    destruct (truthy text); [|eauto].
    destruct (Json.loads text) as [[]|]; try discriminate. eauto. }
  destruct Hf as [fields Hf]. exists fields.
  rewrite (sign_ok self request w secret fields Hs Hf) in H.
  repeat split; congruence.
Qed.

(** The signed request carries the digest, and is sent as it is. *)
Lemma headers_signed_request self secret ts fields request :
  PyDict.get "hmac" (headers (signed_request self secret ts fields request))
  = Some (Some (Hmac.hexdigest
                  (encode secret)
                  (encode (canonical_str repr_container
                             (signature_payload ts fields))))).
Proof. unfold Obs.signed_request. cbn [headers]. apply PyDictFacts.get_set_same. Qed.

Lemma hmac_header_signed_request self secret ts fields request :
  hmac_header (prepare (signed_request self secret ts fields request))
  = Some (Some (Hmac.hexdigest
                  (encode secret)
                  (encode (canonical_str repr_container
                             (signature_payload ts fields))))).
Proof. unfold hmac_header, prepare. cbn [p_headers]. apply headers_signed_request. Qed.

Lemma signed_signed_request self secret ts fields request :
  signed (prepare (signed_request self secret ts fields request)) = true.
Proof.
  pose proof (hmac_header_signed_request self secret ts fields request) as H.
  unfold signed, PyDict.mem. unfold hmac_header in H. now rewrite H.
Qed.

Lemma p_body_signed_request self secret ts fields request :
  p_body (prepare (signed_request self secret ts fields request))
  = Some (Json.dumps (Json.Obj (signature_payload ts fields))).
Proof. reflexivity. Qed.

(** ** The dispatcher *)

Lemma request_unsigned self method path kw w :
  ~ key_configured self ->
  let p := prepare (new_Request method (_base_url self ++ path) kw) in
  _request self method path kw w = (answer self w p, after_send w p).
Proof.
  unfold key_configured. intros Hk.
  unfold YP._request, bind, ret, lift, send, answer, after_send.
  destruct (truthy_opt (_api_key self)); [contradiction Hk; reflexivity|].
  simpl. now destruct (adapter _ _ _).
Qed.

Lemma request_signed self method path kw w r :
  key_configured self ->
  _sign_request self (new_Request method (_base_url self ++ path) kw) w
  = (Ok r, w) ->
  _request self method path kw w
  = (answer self w (prepare r), after_send w (prepare r)).
Proof.
  unfold key_configured. intros Hk Hs.
  unfold YP._request, bind, lift, send, answer, after_send.
  rewrite Hk, Hs. now destruct (adapter _ _ _).
Qed.

Lemma request_sign_raises self method path kw w e w' :
  key_configured self ->
  _sign_request self (new_Request method (_base_url self ++ path) kw) w
  = (Raise e, w') ->
  _request self method path kw w = (Raise e, w).
Proof.
  unfold key_configured. intros Hk Hs.
  assert (Hw : w' = w).
  { pose proof (sign_world self
                  (new_Request method (_base_url self ++ path) kw) w) as X.
    now rewrite Hs in X. }
  subst w'. unfold YP._request, bind. now rewrite Hk, Hs.
Qed.

(** The three ways a call of [_request] can go. *)
Inductive request_outcome (self : YPClient) (request : Request) (w : world)
  : result Json.value * world -> Prop :=
| sent_unsigned :
    ~ key_configured self ->
    request_outcome self request w
      (answer self w (prepare request), after_send w (prepare request))
| sent_signed secret fields :
    key_configured self ->
    _api_secret self = Some secret ->
    body_fields request fields ->
    let r := signed_request self secret (clock w) fields request in
    request_outcome self request w
      (answer self w (prepare r), after_send w (prepare r))
| signer_raised e :
    key_configured self ->
    request_outcome self request w (Raise e, w).

Lemma request_cases self method path kw w :
  request_outcome self (new_Request method (_base_url self ++ path) kw) w
                  (_request self method path kw w).
Proof.
  destruct (truthy_opt (_api_key self)) eqn:Hk.
  - destruct (_sign_request self
                (new_Request method (_base_url self ++ path) kw) w)
      as [[r|e] w'] eqn:Hs.
    + destruct (sign_inv _ _ _ _ _ Hs) as (-> & secret & fields & H1 & H2 & ->).
      rewrite (request_signed _ _ _ _ _ _ Hk Hs).
      now apply sent_signed.
    + rewrite (request_sign_raises _ _ _ _ _ _ _ Hk Hs).
      now apply signer_raised.
  - rewrite request_unsigned by (unfold key_configured; congruence).
    apply sent_unsigned. unfold key_configured. congruence.
Qed.

Lemma not_dispatched_same w p : ~ dispatched w w p.
Proof.
  unfold dispatched. intros H. apply (f_equal (@List.length _)) in H.
  rewrite length_app in H. simpl in H. lia.
Qed.

Lemma dispatched_after_send w p q : dispatched w (after_send w p) q -> q = p.
Proof.
  unfold dispatched, after_send. simpl. intros H.
  apply app_inj_tail in H. now destruct H.
Qed.

(** What [_request] hands to the HTTP collaborator, when it does: the
    request it built when the key is not configured, the same request
    signed when it is. *)
Lemma dispatched_inv self method path kw w p :
  dispatched w (snd (_request self method path kw w)) p ->
  let request := new_Request method (_base_url self ++ path) kw in
  (~ key_configured self /\ p = prepare request)
  \/ (key_configured self /\
      exists secret fields,
        _api_secret self = Some secret /\ body_fields request fields /\
        p = prepare (signed_request self secret (clock w) fields request)).
Proof.
  intros H request.
  destruct (request_cases self method path kw w)
    as [Hk|secret fields Hk Hs Hb r|e Hk]; simpl in H.
  - left. split; [assumption|]. now apply dispatched_after_send in H.
  - right. split; [assumption|]. exists secret, fields.
    repeat split; try assumption. now apply dispatched_after_send in H.
  - now apply not_dispatched_same in H.
Qed.

End Facts.

End ClientFacts.

(** * The properties of the client *)

Module Claims.

Import Py Requests YP Obs ClientFacts.

Section Properties.

Variable repr_container : Json.value -> string.

Local Abbreviation _sign_request := (_sign_request repr_container).
Local Abbreviation _request := (_request repr_container).
Local Abbreviation _post := (_post repr_container).
Local Abbreviation _get := (_get repr_container).

(** C1. Each of the six methods that require authentication, called on a
    client whose API key is not configured, raises the [TypeError] of the
    decorator and returns the world it was given: the HTTP collaborator is
    never called. *)
Theorem C1_unauthenticated_call_raises_without_io (self : YPClient) (w : world) :
  ~ key_configured self ->
  let refused : result Json.value * world :=
    (Raise (TypeError "You must be authenticated to use this method"), w) in
  get_wallet_balances repr_container self tt w = refused
  /\ (forall pair, get_open_orders repr_container self pair w = refused)
  /\ (forall trade market side volume,
        place_market_order repr_container self
          (trade, market, side, volume) w = refused)
  /\ (forall trade market side volume rate,
        place_limit_order repr_container self
          (trade, market, side, volume, rate) w = refused)
  /\ (forall existing_order_id,
        get_order_status repr_container self existing_order_id w = refused)
  /\ (forall side orderId,
        cancel_order repr_container self (side, orderId) w = refused).
Proof.
  unfold key_configured. intros Hk.
  assert (Hf : truthy_opt (_api_key self) = false)
    by (destruct (truthy_opt (_api_key self)); [now contradiction Hk | reflexivity]).
  unfold get_wallet_balances, get_open_orders, place_market_order,
    place_limit_order, get_order_status, cancel_order,
    authentication_required, raise.
  rewrite Hf. simpl. repeat split.
Qed.

(** C2. A request that [_request] hands to the HTTP collaborator carries the
    [hmac] header if and only if the API key is configured and the API
    secret is present; with no secret, no request that is sent is signed. *)
Theorem C2_signed_iff_key_and_secret
        (self : YPClient) (method path : string) (kw : kwargs)
        (w : world) (p : PreparedRequest) :
  dispatched w (snd (_request self method path kw w)) p ->
  (signed p = true <-> key_configured self /\ secret_present self)
  /\ (_api_secret self = None -> signed p = false).
Proof.
  intros H. apply dispatched_inv in H.
  destruct H as [[Hk ->]|[Hk (secret & fields & Hs & Hb & ->)]].
  - split.
    + split; [discriminate | tauto].
    + reflexivity.
  - rewrite signed_signed_request. split.
    + split; [|reflexivity]. intros _. split; [assumption|].
      unfold secret_present. congruence.
    + congruence.
Qed.


(** Any request that [_request] sends goes to the base URL followed by the
    path, with the method it was given. *)
Lemma dispatched_url self method path kw w p :
  dispatched w (snd (_request self method path kw w)) p ->
  p_url p = _base_url self ++ path /\ p_method p = method.
Proof.
  intros H. apply dispatched_inv in H.
  destruct H as [[_ ->]|[_ (secret & fields & _ & _ & ->)]]; now split.
Qed.

(** C9. [get_orderbook] for the pair BTC-EUR and the default depth is the
    GET of the path [orderbook?pair=BTC-EUR&depth=10]; the request it sends
    goes to the base URL followed by that path. *)
Theorem C9_get_orderbook_default_depth (self : YPClient) :
  get_orderbook repr_container self "BTC-EUR" None
  = _request self "GET" "orderbook?pair=BTC-EUR&depth=10" (mkKwargs None None)
  /\ (forall w p,
        dispatched w (snd (get_orderbook repr_container self "BTC-EUR" None w)) p ->
        p_method p = "GET"
        /\ p_url p = _base_url self ++ "orderbook?pair=BTC-EUR&depth=10").
Proof.
  assert (E : get_orderbook repr_container self "BTC-EUR" None
              = _request self "GET" "orderbook?pair=BTC-EUR&depth=10"
                         (mkKwargs None None)) by reflexivity.
  split; [exact E|].
  intros w p H. rewrite E in H. apply dispatched_url in H. tauto.
Qed.

(** C10. On a client with a key, [place_limit_order("BTC","EUR","BUY",1.5,
    20000)] is the POST of the path [placeOrder] with the body mapping of
    [limit_order_body]: this mapping is the [json] of the request that
    [_request] builds, and what the signer reads back from it before it
    adds its own fields. *)
Theorem C10_place_limit_order_body (self : YPClient) :
  key_configured self ->
  let kw := mkKwargs None (Some (Json.Obj limit_order_body)) in
  let request := new_Request "POST" (_base_url self ++ "placeOrder") kw in
  (forall w,
      place_limit_order repr_container self
        ("BTC", "EUR", "BUY", Json.Float "1.5", Json.Int 20000) w
      = _request self "POST" "placeOrder" kw w)
  /\ json request = Some (Json.Obj limit_order_body)
  /\ p_body (prepare request)
     = Some (dq "{'trade': 'BTC', 'market': 'EUR', 'side': 'BUY', 'type': 'LIMIT', 'volume': 1.5, 'rate': 20000}")
  /\ body_fields request (Some limit_order_body)
  /\ (forall w p,
        dispatched w (snd (_request self "POST" "placeOrder" kw w)) p ->
        p_method p = "POST" /\ p_url p = _base_url self ++ "placeOrder").
Proof.
  intros Hk kw request. unfold key_configured in Hk.
  split; [|split; [|split; [|split]]].
  - intros w. unfold place_limit_order, authentication_required.
    rewrite Hk. reflexivity.
  - reflexivity.
  - unfold request. rewrite p_body_new_Request. vm_compute. reflexivity.
  - apply body_fields_json with (j := Json.Obj limit_order_body);
      [reflexivity | vm_compute; reflexivity].
  - intros w p H. apply dispatched_url in H. tauto.
Qed.

(** The signer's two keys stay defined whatever the body holds. *)
Lemma payload_defines_fixed_keys ts fields :
  (forall b, fields = Some b -> PyDict.wf b) ->
  PyDict.mem "recvWindow" (signature_payload ts fields) = true
  /\ PyDict.mem "timestamp" (signature_payload ts fields) = true.
Proof.
  intros Hwf. unfold PyDict.mem, signature_payload.
  destruct fields as [b|]; [|now split].
  rewrite !PyDictFacts.get_update by now apply Hwf.
  split.
  - now destruct (PyDict.get "recvWindow" b).
  - now destruct (PyDict.get "timestamp" b).
Qed.

(** C3. For a body mapping whose keys are neither [recvWindow] nor
    [timestamp], the payload is the two fixed fields followed by the fields
    of the body, and the text that is signed lists the items of the payload
    with their keys in strictly ascending order, each written [key=value]
    with the value as [str] gives it, joined by [&] with none at the end. *)
Theorem C3_signature_string_sorted (ts : Z) (B : PyDict.t Json.value) :
  PyDict.wf B ->
  PyDict.mem "recvWindow" B = false ->
  PyDict.mem "timestamp" B = false ->
  let payload := signature_payload ts (Some B) in
  let sorted := ItemSort.sort payload in
  payload = (fixed_fields ts ++ B)%list
  /\ Permutation payload sorted
  /\ StronglySorted key_lt sorted
  /\ signature_payload_ordered_str repr_container payload
     = String.concat "&"
         (map (fun kv => fst kv ++ "=" ++ py_str repr_container (snd kv))
              sorted).
Proof.
  intros Hwf Hr Ht payload sorted.
  assert (Hp : PyDict.wf payload) by apply SigFacts.wf_signature_payload.
  repeat split.
  - unfold payload, signature_payload.
    apply PyDictFacts.update_disjoint; [assumption|].
    intros k Hk. simpl.
    destruct (String.eqb_spec k "recvWindow") as [->|_].
    { unfold PyDict.mem in Hr.
      destruct (PyDict.get "recvWindow" B) eqn:E; [discriminate|].
      now apply PyDictFacts.get_None_not_In in E. }
    destruct (String.eqb_spec k "timestamp") as [->|_]; [|reflexivity].
    unfold PyDict.mem in Ht.
    destruct (PyDict.get "timestamp" B) eqn:E; [discriminate|].
    now apply PyDictFacts.get_None_not_In in E.
  - apply ItemSort.Permuted_sort.
  - now apply SortFacts.sort_strict.
  - now apply SigFacts.signature_payload_ordered_str_spec.
Qed.

(** C4. When the body of the request defines [recvWindow] or [timestamp],
    the payload holds the value of the body under that key, not the fixed
    one: this value is in the text that is signed and in the body that is
    sent. *)
Theorem C4_body_overrides_fixed_fields
        (self : YPClient) (request r : Request) (w w' : world)
        (b : PyDict.t Json.value) (k : string) (v : Json.value) :
  _sign_request self request w = (Ok r, w') ->
  body_fields request (Some b) ->
  k = "recvWindow" \/ k = "timestamp" ->
  PyDict.get k b = Some v ->
  exists secret,
    let payload := signature_payload (clock w) (Some b) in
    _api_secret self = Some secret
    /\ PyDict.get k payload = Some v
    /\ (forall v', In (k, v') payload -> v' = v)
    /\ In (k, v) (ItemSort.sort payload)
    /\ PyDict.get "hmac" (headers r)
       = Some (Some (Hmac.hexdigest
                       (encode secret)
                       (encode (signature_payload_ordered_str
                                  repr_container payload))))
    /\ signature_payload_ordered_str repr_container payload
       = canonical_str repr_container payload
    /\ data r = Some (Json.dumps (Json.Obj payload)).
Proof.
  intros Hs Hb _ Hg.
  destruct (sign_inv repr_container _ _ _ _ _ Hs)
    as (-> & secret & fields & Hsec & Hb' & ->).
  rewrite (body_fields_fun _ _ _ Hb' Hb).
  pose proof (body_fields_wf _ _ Hb) as Hwf.
  exists secret. intros payload.
  assert (Hp : PyDict.wf payload) by apply SigFacts.wf_signature_payload.
  assert (Hget : PyDict.get k payload = Some v).
  { unfold payload, signature_payload.
    rewrite PyDictFacts.get_update by assumption. now rewrite Hg. }
  assert (Hstr := SigFacts.signature_payload_ordered_str_spec
                    repr_container payload Hp).
  repeat split; try assumption.
  - intros v' Hin. apply (PyDictFacts.In_get _ _ _ Hp) in Hin. congruence.
  - apply Permutation_in with (l := payload);
      [apply ItemSort.Permuted_sort | now apply PyDictFacts.get_In].
  - simpl. rewrite PyDictFacts.get_set_same. fold payload.
    now rewrite Hstr.
Qed.


(** C7. Two runs of the signer with the same secret, the same body and the
    same time write the same [hmac] header: the HMAC-SHA512 of the
    serialized payload under the secret, as 128 lowercase hexadecimal
    digits. *)
Theorem C7_signing_deterministic
        (self1 self2 : YPClient) (request1 request2 r1 r2 : Request)
        (w1 w2 w1' w2' : world) :
  _api_secret self1 = _api_secret self2 ->
  p_body (prepare request1) = p_body (prepare request2) ->
  clock w1 = clock w2 ->
  _sign_request self1 request1 w1 = (Ok r1, w1') ->
  _sign_request self2 request2 w2 = (Ok r2, w2') ->
  exists secret fields,
    let digest :=
      Hmac.hexdigest
        (encode secret)
        (encode (signature_payload_ordered_str repr_container
                   (signature_payload (clock w1) fields))) in
    _api_secret self1 = Some secret
    /\ body_fields request1 fields
    /\ PyDict.get "hmac" (headers r1) = Some (Some digest)
    /\ PyDict.get "hmac" (headers r2) = Some (Some digest)
    /\ String.length digest = 128
    /\ all_chars is_lower_hex digest = true.
Proof.
  intros Hsec Hbody Hclock H1 H2.
  destruct (sign_inv repr_container _ _ _ _ _ H1)
    as (-> & s1 & f1 & Hs1 & Hb1 & ->).
  destruct (sign_inv repr_container _ _ _ _ _ H2)
    as (-> & s2 & f2 & Hs2 & Hb2 & ->).
  assert (s2 = s1) by congruence. subst s2.
  assert (Hb2' : body_fields request1 f2)
    by (unfold body_fields in *; now rewrite Hbody).
  rewrite (body_fields_fun _ _ _ Hb2' Hb1), <- Hclock.
  exists s1, f1. intros digest.
  assert (Hstr := SigFacts.signature_payload_ordered_str_spec repr_container
                    (signature_payload (clock w1) f1)
                    (SigFacts.wf_signature_payload _ _)).
  destruct (HexFacts.hexdigest_lower
              (encode s1)
              (encode (signature_payload_ordered_str repr_container
                         (signature_payload (clock w1) f1)))) as [Hl Hh].
  repeat split; try assumption;
    simpl; rewrite PyDictFacts.get_set_same; unfold digest;
    now rewrite Hstr.
Qed.

(** C8. The [hmac] header does not depend on the method, the path or the
    query that the path holds, nor on the key or the base URL: two signed
    requests sent with the same secret, the same body and the same time
    carry the same digest. *)
Theorem C8_digest_independent_of_path
        (self1 self2 : YPClient) (method1 method2 path1 path2 : string)
        (kw1 kw2 : kwargs) (w1 w2 : world) (p1 p2 : PreparedRequest) :
  key_configured self1 -> key_configured self2 ->
  _api_secret self1 = _api_secret self2 ->
  kw_json kw1 = kw_json kw2 ->
  clock w1 = clock w2 ->
  dispatched w1 (snd (_request self1 method1 path1 kw1 w1)) p1 ->
  dispatched w2 (snd (_request self2 method2 path2 kw2 w2)) p2 ->
  hmac_header p1 = hmac_header p2
  /\ exists digest, hmac_header p1 = Some (Some digest).
Proof.
  intros Hk1 Hk2 Hsec Hj Hclock H1 H2.
  apply dispatched_inv in H1, H2.
  destruct H1 as [[Hn _]|[_ (s1 & f1 & Hs1 & Hb1 & ->)]]; [contradiction|].
  destruct H2 as [[Hn _]|[_ (s2 & f2 & Hs2 & Hb2 & ->)]]; [contradiction|].
  assert (s2 = s1) by congruence. subst s2.
  assert (f2 = f1).
  { unfold body_fields in Hb1, Hb2.
    rewrite p_body_new_Request in Hb1, Hb2. rewrite <- Hj in Hb2.
    destruct (option_map Json.dumps (kw_json kw1)) as [text|]; [|congruence].
    destruct (truthy text); [|congruence].
    destruct Hb1 as (b1 & -> & E1), Hb2 as (b2 & -> & E2). congruence. }
  subst f2. rewrite !hmac_header_signed_request, Hclock.
  split; [reflexivity | eauto].
Qed.

End Properties.

End Claims.

(** * The properties at concrete inputs *)

Module Witness.

Import Py Requests YP Obs ClientFacts Claims Demo.

Ltac nodup := unfold PyDict.wf; simpl; repeat constructor; simpl; intuition discriminate.

Ltac not_configured := unfold key_configured; simpl; discriminate.

Lemma C1_witness :
  ~ key_configured anonymous
  /\ get_wallet_balances repr_container anonymous tt noon
     = (Raise (TypeError "You must be authenticated to use this method"), noon)
  /\ cancel_order repr_container empty_key ("SELL", 42%Z) noon
     = (Raise (TypeError "You must be authenticated to use this method"), noon).
Proof.
  split; [not_configured|]. split.
  - apply (C1_unauthenticated_call_raises_without_io
             repr_container anonymous noon). not_configured.
  - apply (C1_unauthenticated_call_raises_without_io
             repr_container empty_key noon). not_configured.
Defined.

Lemma C2_witness :
  dispatched noon
    (snd (_request repr_container trader "GET" "markets"
                   (mkKwargs None None) noon))
    (prepare (signed_request repr_container trader "secret" 1700000000 None
                             markets_request))
  /\ (signed (prepare (signed_request repr_container trader "secret"
                                      1700000000 None markets_request)) = true
      <-> key_configured trader /\ secret_present trader).
Proof.
  assert (H : dispatched noon
                (snd (_request repr_container trader "GET" "markets"
                               (mkKwargs None None) noon))
                (prepare (signed_request repr_container trader "secret"
                                         1700000000 None markets_request)))
    by (vm_compute; reflexivity).
  split; [exact H|].
  exact (proj1 (C2_signed_iff_key_and_secret repr_container trader "GET"
                  "markets" (mkKwargs None None) noon _ H)).
Defined.

Lemma C3_witness :
  PyDict.wf limit_order_body
  /\ signature_payload_ordered_str repr_container
       (signature_payload 1700000000 (Some limit_order_body))
     = String.concat "&"
         (map (fun kv => fst kv ++ "=" ++ py_str repr_container (snd kv))
              (ItemSort.sort
                 (signature_payload 1700000000 (Some limit_order_body)))).
Proof.
  assert (H : PyDict.wf limit_order_body) by nodup.
  split; [exact H|].
  exact (proj2 (proj2 (proj2
           (C3_signature_string_sorted repr_container 1700000000
              limit_order_body H eq_refl eq_refl)))).
Defined.

Lemma C4_witness :
  body_fields cancel_request (Some cancel_body)
  /\ exists secret,
       _api_secret trader = Some secret
       /\ PyDict.get "timestamp"
            (signature_payload 1700000000 (Some cancel_body))
          = Some (Json.Int 7).
Proof.
  assert (Hb : body_fields cancel_request (Some cancel_body)).
  { unfold body_fields. simpl. exists cancel_body.
    split; [reflexivity | vm_compute; reflexivity]. }
  split; [exact Hb|].
  destruct (C4_body_overrides_fixed_fields repr_container trader
              cancel_request
              (signed_request repr_container trader "secret" 1700000000
                              (Some cancel_body) cancel_request)
              noon noon cancel_body "timestamp" (Json.Int 7)
              (sign_ok repr_container trader cancel_request noon "secret"
                       (Some cancel_body) eq_refl Hb)
              Hb (or_intror eq_refl) eq_refl)
    as (secret & Hs & Hg & _).
  exists secret. split; [exact Hs | exact Hg].
Defined.


Lemma C7_witness :
  exists secret fields,
    _api_secret trader = Some secret
    /\ body_fields (order_request trader "placeOrder") fields
    /\ PyDict.get "hmac"
         (headers (signed_request repr_container trader "secret" 1700000000
                     (Some limit_order_body)
                     (order_request trader "placeOrder")))
       = PyDict.get "hmac"
           (headers (signed_request repr_container other_trader "secret"
                       1700000000 (Some limit_order_body)
                       (order_request other_trader "orders"))).
Proof.
  assert (Hb : forall self path,
             body_fields (order_request self path) (Some limit_order_body)).
  { intros self path. unfold body_fields. simpl. exists limit_order_body.
    split; [reflexivity | vm_compute; reflexivity]. }
  destruct (C7_signing_deterministic repr_container trader other_trader
              (order_request trader "placeOrder")
              (order_request other_trader "orders")
              _ _ noon noon noon noon eq_refl eq_refl eq_refl
              (sign_ok repr_container trader _ noon "secret" _ eq_refl
                       (Hb trader "placeOrder"))
              (sign_ok repr_container other_trader _ noon "secret" _ eq_refl
                       (Hb other_trader "orders")))
    as (secret & fields & Hs & Hf & H1 & H2 & _).
  exists secret, fields. split; [exact Hs|]. split; [exact Hf|].
  exact (eq_trans H1 (eq_sym H2)).
Defined.

Lemma C8_witness :
  hmac_header
    (prepare (signed_request repr_container trader "secret" 1700000000 None
                (new_Request "POST"
                   (_base_url trader ++ "orderbyid?orderId=1")
                   (mkKwargs None None))))
  = hmac_header
      (prepare (signed_request repr_container other_trader "secret"
                  1700000000 None
                  (new_Request "POST"
                     (_base_url other_trader ++ "orderbyid?orderId=2")
                     (mkKwargs None None)))).
Proof.
  refine (proj1 (C8_digest_independent_of_path repr_container
                   trader other_trader "POST" "POST"
                   "orderbyid?orderId=1" "orderbyid?orderId=2"
                   (mkKwargs None None) (mkKwargs None None) noon noon
                   _ _ eq_refl eq_refl eq_refl eq_refl eq_refl _ _)).
  - vm_compute. reflexivity.
  - vm_compute. reflexivity.
Defined.

Lemma C10_witness :
  key_configured trader
  /\ place_limit_order repr_container trader
       ("BTC", "EUR", "BUY", Json.Float "1.5", Json.Int 20000) noon
     = _request repr_container trader "POST" "placeOrder" order_kwargs noon.
Proof.
  split; [reflexivity|].
  exact (proj1 (C10_place_limit_order_body repr_container trader eq_refl)
               noon).
Defined.

End Witness.

(** * More properties of the dispatcher and of the public methods *)

Module Extras.

Import Py Requests YP Obs ClientFacts.

Section Properties.

Variable repr_container : Json.value -> string.

Local Abbreviation _sign_request := (_sign_request repr_container).
Local Abbreviation _request := (_request repr_container).

(** What a call of [_request] does to the world. *)
Lemma request_effects
      (self : YPClient) (method path : string) (kw : kwargs) (w : world) :
  clock (snd (_request self method path kw w)) = clock w
  /\ ((no_network_call w (snd (_request self method path kw w))
       /\ exists e, fst (_request self method path kw w) = Raise e)
      \/ (exists p,
            dispatched w (snd (_request self method path kw w)) p
            /\ fst (_request self method path kw w) = answer self w p)).
Proof.
  destruct (request_cases repr_container self method path kw w)
    as [Hk|secret fields Hk Hs Hb r|e Hk]; simpl.
  - split; [reflexivity|]. right. eexists. split; reflexivity.
  - split; [reflexivity|]. right. eexists. split; reflexivity.
  - split; [reflexivity|]. left. split; [reflexivity | eauto].
Qed.

(** X1. A call of [_request] makes at most one network call and leaves the
    clock alone: either nothing is sent and the call raises, or one request
    is sent and the call returns what the HTTP collaborator answered,
    normalized by [_process_response]. *)
Theorem X1_request_at_most_one_call
        (self : YPClient) (method path : string) (kw : kwargs) (w : world) :
  clock (snd (_request self method path kw w)) = clock w
  /\ ((no_network_call w (snd (_request self method path kw w))
       /\ exists e, fst (_request self method path kw w) = Raise e)
      \/ (exists p,
            dispatched w (snd (_request self method path kw w)) p
            /\ fst (_request self method path kw w) = answer self w p)).
Proof. apply request_effects. Qed.

(** X2. A call that returns data has made exactly one network call. *)
Theorem X2_data_means_one_call
        (self : YPClient) (method path : string) (kw : kwargs) (w : world)
        (data : Json.value) :
  fst (_request self method path kw w) = Ok data ->
  exists p, dispatched w (snd (_request self method path kw w)) p
            /\ answer self w p = Ok data.
Proof.
  intros H.
  destruct (request_effects self method path kw w)
    as [_ [[_ [e He]]|[p [Hd Ha]]]].
  - congruence.
  - exists p. split; [assumption | congruence].
Qed.


(** The text that is signed for a call with no body, and the body that is
    sent. *)
Lemma canonical_str_no_body (ts : Z) :
  canonical_str repr_container (signature_payload ts None)
  = "recvWindow=10&timestamp=" ++ str_int ts.
Proof. reflexivity. Qed.

Lemma dumps_no_body (ts : Z) :
  Json.dumps (Json.Obj (signature_payload ts None))
  = dq "{'recvWindow': 10, 'timestamp': " ++ str_int ts ++ "}".
Proof. reflexivity. Qed.





End Properties.

End Extras.

From Stdlib Require Import DecimalPos.

(** * [json.loads] reads back what [json.dumps] wrote *)

Module RoundTrip.

Import Py Json Obs.

(** The strings, numbers and values of the round trip: strings of ASCII
    characters, floats written as a JSON number, objects with no key
    twice. *)
Definition ascii_char (c : ascii) : bool := (N_of_ascii c <? 128)%N.

Definition ascii_str (s : string) : bool := all_chars ascii_char s.

Definition float_literal (r : string) : bool :=
  match match_number r with
  | Some (Float r', EmptyString) => String.eqb r' r
  | _ => false
  end.

Fixpoint nodupb (l : list string) : bool :=
  match l with
  | [] => true
  | k :: r => negb (existsb (String.eqb k) r) && nodupb r
  end.

Fixpoint value_ok (v : value) : bool :=
  match v with
  | Null | Bool _ | Int _ => true
  | Float r => float_literal r
  | Str s => ascii_str s
  | Arr l => forallb value_ok l
  | Obj d =>
      forallb (fun kv => match kv with
                         | (k, x) => ascii_str k && value_ok x
                         end) d
      && nodupb (map fst d)
  end.

(** The number of values in a value. *)
Fixpoint size (v : value) : nat :=
  match v with
  | Arr l => S (list_sum (map size l))
  | Obj d =>
      S (list_sum (map (fun kv => match kv with (_, x) => size x end) d))
  | _ => 1
  end.

(** What may follow a value in a text: nothing, or a character that no
    number holds and that is not white space. *)
Definition delimiter (c : ascii) : bool :=
  Ascii.eqb c "," || Ascii.eqb c "}" || Ascii.eqb c "]".

Definition delimited (rest : string) : Prop :=
  match rest with
  | EmptyString => True
  | String c _ => delimiter c = true
  end.

(** The escaped text of a string, between the quotes. *)
Definition escaped (s : string) : string :=
  String.concat EmptyString (map escape_char (code_points s)).

(** ** Strings *)

Lemma code_points_ascii (s : string) :
  ascii_str s = true ->
  code_points s = map N_of_ascii (list_ascii_of_string s).
Proof.
  unfold code_points, ascii_str.
  induction s as [|c s IH]; simpl; [reflexivity|].
  unfold ascii_char at 1. intros H. apply andb_prop in H. destruct H as [Hc Hs].
  apply N.ltb_lt in Hc.
  replace (N_of_ascii c <? 192)%N with true
    by (symmetry; apply N.ltb_lt; lia).
  now rewrite IH.
Qed.

Lemma escaped_cons (c : ascii) (s : string) :
  ascii_str (String c s) = true ->
  escaped (String c s) = escape_char (N_of_ascii c) ++ escaped s.
Proof.
  intros H. unfold escaped. rewrite code_points_ascii by assumption.
  simpl in H. apply andb_prop in H. destruct H as [_ Hs].
  rewrite code_points_ascii by assumption.
  simpl. apply StrFacts.concat_empty_cons.
Qed.

(** One step of the scanner over the escape of one ASCII character. *)
Lemma scan_step (c : ascii) (fuel : nat) (tail : string) :
  ascii_char c = true ->
  scanstring (S fuel) (escape_char (N_of_ascii c) ++ tail)
  = match scanstring fuel tail with
    | Some (t, rest) => Some (String c t, rest)
    | None => None
    end.
Proof.
  intros Hc.
  destruct c as [[] [] [] [] [] [] [] []]; try discriminate Hc; reflexivity.
Qed.

Lemma scan_escaped (s : string) :
  ascii_str s = true ->
  forall fuel rest,
    String.length s < fuel ->
    scanstring fuel (escaped s ++ String DQUOTE rest) = Some (s, rest).
Proof.
  induction s as [|c s IH]; intros Hs fuel rest Hf.
  - destruct fuel; [inversion Hf|]. reflexivity.
  - destruct fuel; [inversion Hf|].
    rewrite escaped_cons by assumption.
    simpl in Hs. apply andb_prop in Hs. destruct Hs as [Hc Hs].
    rewrite StrFacts.append_assoc, scan_step by assumption.
    rewrite IH; [reflexivity | assumption | simpl in Hf; lia].
Qed.


(** ** Numbers *)

Lemma delimiter_cases (c : ascii) :
  delimiter c = true -> c = ","%char \/ c = "}"%char \/ c = "]"%char.
Proof.
  unfold delimiter. intros H.
  destruct (Ascii.eqb_spec c ","); [now left|].
  destruct (Ascii.eqb_spec c "}"); [now right; left|].
  destruct (Ascii.eqb_spec c "]"); [now right; right|].
  discriminate.
Qed.

(** What starts a delimited text starts no part of a number and is not
    white space. *)
Lemma delimited_span rest : delimited rest -> span_digits rest = (EmptyString, rest).
Proof.
  destruct rest as [|c r]; [reflexivity|]. simpl. intros H.
  apply delimiter_cases in H. now destruct H as [->|[->| ->]].
Qed.

Lemma delimited_expect rest c :
  is_digit c = true \/ In c ["."; "e"; "E"; "+"; "-"; ":"; DQUOTE]%char ->
  delimited rest -> expect c rest = None.
Proof.
  destruct rest as [|x r]; [reflexivity|]. simpl. intros Hc H.
  apply delimiter_cases in H.
  destruct (Ascii.eqb_spec x c) as [->|]; [|reflexivity].
  exfalso. simpl in Hc.
  destruct H as [->|[->| ->]];
    (destruct Hc as [Hc|Hc]; [discriminate Hc|]);
    repeat (destruct Hc as [Hc|Hc]; [discriminate Hc|]); exact Hc.
Qed.

Lemma delimited_skip_ws rest : delimited rest -> skip_ws rest = rest.
Proof.
  destruct rest as [|c r]; [reflexivity|]. simpl. intros H.
  apply delimiter_cases in H. now destruct H as [->|[->| ->]].
Qed.

Lemma span_digits_app (a rest ds r : string) :
  delimited rest -> span_digits a = (ds, r) ->
  span_digits (a ++ rest) = (ds, r ++ rest).
Proof.
  intros Hd. revert ds r. induction a as [|c a IH]; intros ds r; simpl.
  - intros [= <- <-]. now apply delimited_span.
  - destruct (is_digit c).
    + destruct (span_digits a) as [ds' r'] eqn:E. intros [= <- <-].
      now rewrite (IH ds' r' eq_refl).
    + intros [= <- <-]. reflexivity.
Qed.

Lemma expect_app (c : ascii) (a rest : string) :
  a <> EmptyString ->
  expect c (a ++ rest) = option_map (fun r => r ++ rest) (expect c a).
Proof.
  destruct a as [|x a]; [congruence|]. intros _. simpl.
  now destruct (Ascii.eqb x c).
Qed.

Lemma take_sign_app (a rest sg r : string) :
  delimited rest -> take_sign a = (sg, r) ->
  take_sign (a ++ rest) = (sg, r ++ rest).
Proof.
  intros Hd. unfold take_sign. destruct a as [|x a].
  - simpl. intros [= <- <-].
    now rewrite delimited_expect by (simpl; auto 10).
  - rewrite expect_app by discriminate.
    destruct (expect "-" (String x a)); intros [= <- <-]; reflexivity.
Qed.

Lemma take_integer_app (a rest i r : string) :
  delimited rest -> take_integer a = Some (i, r) ->
  take_integer (a ++ rest) = Some (i, r ++ rest).
Proof.
  intros Hd. destruct a as [|c a]; [discriminate|].
  unfold take_integer.
  change (String c a ++ rest) with (String c (a ++ rest)).
  cbv beta iota.
  destruct (is_digit c) eqn:Hc; [|discriminate].
  destruct (Ascii.eqb c "0").
  - intros [= <- <-]. reflexivity.
  - intros [= H]. f_equal.
    change (String c (a ++ rest)) with (String c a ++ rest).
    now apply span_digits_app.
Qed.

Lemma take_frac_app (a rest f r : string) :
  delimited rest -> take_frac a = (f, r) ->
  take_frac (a ++ rest) = (f, r ++ rest).
Proof.
  intros Hd. unfold take_frac. destruct a as [|x a].
  - simpl. intros [= <- <-].
    now rewrite delimited_expect by (simpl; auto 10).
  - rewrite expect_app by discriminate.
    destruct (expect "." (String x a)) as [a'|]; simpl.
    + destruct (span_digits a') as [ds r'] eqn:E.
      rewrite (span_digits_app _ _ _ _ Hd E).
      destruct ds; intros [= <- <-]; reflexivity.
    + intros [= <- <-]. reflexivity.
Qed.

Lemma take_exp_app (a rest e r : string) :
  delimited rest -> take_exp a = (e, r) ->
  take_exp (a ++ rest) = (e, r ++ rest).
Proof.
  intros Hd. unfold take_exp. destruct a as [|x a].
  - simpl. intros [= <- <-]. destruct rest as [|c rest]; [reflexivity|].
    simpl in Hd. apply delimiter_cases in Hd.
    now destruct Hd as [->|[->| ->]].
  - change (String x a ++ rest) with (String x (a ++ rest)).
    cbv beta iota.
    destruct (Ascii.eqb x "e" || Ascii.eqb x "E"); [|now intros [= <- <-]].
    destruct a as [|y a].
    + cbn [append expect span_digits]. intros [= <- <-].
      rewrite (delimited_expect rest "+"), (delimited_expect rest "-"),
        (delimited_span rest Hd) by (simpl; auto 10).
      reflexivity.
    + rewrite !expect_app by discriminate.
      destruct (expect "+" (String y a)) as [a'|]; cbn [option_map]; cbv beta iota.
      * destruct (span_digits a') as [ds r'] eqn:E.
        rewrite (span_digits_app _ _ _ _ Hd E).
        destruct ds; intros [= <- <-]; reflexivity.
      * destruct (expect "-" (String y a)) as [a'|]; cbn [option_map]; cbv beta iota.
        -- destruct (span_digits a') as [ds r'] eqn:E.
           rewrite (span_digits_app _ _ _ _ Hd E).
           destruct ds; intros [= <- <-]; reflexivity.
        -- destruct (span_digits (String y a)) as [ds r'] eqn:E.
           change (String y (a ++ rest)) with (String y a ++ rest).
           rewrite (span_digits_app _ _ _ _ Hd E).
           destruct ds; intros [= <- <-]; reflexivity.
Qed.

(** A number that is read alone is read the same before a delimiter. *)
Lemma match_number_app (a rest : string) (v : value) :
  delimited rest -> match_number a = Some (v, EmptyString) ->
  match_number (a ++ rest) = Some (v, rest).
Proof.
  intros Hd. unfold match_number.
  destruct (take_sign a) as [sg s1] eqn:E1.
  rewrite (take_sign_app _ _ _ _ Hd E1).
  destruct (take_integer s1) as [[i s2]|] eqn:E2; [|discriminate].
  rewrite (take_integer_app _ _ _ _ Hd E2).
  destruct (take_frac s2) as [f s3] eqn:E3.
  rewrite (take_frac_app _ _ _ _ Hd E3).
  destruct (take_exp s3) as [e s4] eqn:E4.
  rewrite (take_exp_app _ _ _ _ Hd E4).
  destruct f, e;
    try (intros [= <- ->]; reflexivity).
  destruct (NilZero.int_of_string (sg ++ i)); [|discriminate].
  intros [= <- ->]. reflexivity.
Qed.

(** ** Integers *)

Lemma uint_digits (u : Decimal.uint) :
  all_chars is_digit (NilEmpty.string_of_uint u) = true.
Proof. induction u; simpl; auto. Qed.

Lemma span_all_digits (s : string) :
  all_chars is_digit s = true -> span_digits s = (s, EmptyString).
Proof.
  induction s as [|c s IH]; simpl; [reflexivity|].
  intros H. apply andb_prop in H. destruct H as [Hc Hs].
  now rewrite Hc, IH.
Qed.

(** A normalized numeral has no zero in front, unless it is zero. *)
Lemma unorm_head (u : Decimal.uint) :
  match Decimal.unorm u with
  | Decimal.Nil => False
  | Decimal.D0 Decimal.Nil => True
  | Decimal.D0 _ => False
  | _ => True
  end.
Proof. induction u; simpl; auto. Qed.

Lemma to_uint_head (p : positive) :
  match Pos.to_uint p with
  | Decimal.Nil | Decimal.D0 _ => False
  | _ => True
  end.
Proof.
  pose proof (DecimalPos.Unsigned.to_of (Pos.to_uint p)) as H.
  rewrite DecimalPos.Unsigned.of_to in H. simpl in H.
  pose proof (unorm_head (Pos.to_uint p)) as Hu. rewrite <- H in Hu.
  pose proof (DecimalPos.Unsigned.to_uint_nonzero p) as Hz.
  destruct (Pos.to_uint p) as [|u| | | | | | | | | ]; try exact I;
    [exact Hu|].
  destruct u; contradiction.
Qed.

(** The digits of a positive number are read back as they are. *)
Lemma match_number_digits (sg : string) (u : Decimal.uint) :
  (sg = EmptyString \/ sg = "-") ->
  match u with Decimal.Nil | Decimal.D0 _ => False | _ => True end ->
  match_number (sg ++ NilEmpty.string_of_uint u)
  = match NilZero.int_of_string (sg ++ NilEmpty.string_of_uint u) with
    | Some i => Some (Int (Z.of_int i), EmptyString)
    | None => None
    end.
Proof.
  intros Hsg Hu.
  pose proof (uint_digits u) as Hd.
  pose proof (span_all_digits _ Hd) as Hs.
  unfold match_number.
  assert (E1 : take_sign (sg ++ NilEmpty.string_of_uint u)
               = (sg, NilEmpty.string_of_uint u)).
  { destruct Hsg as [-> | ->]; [|reflexivity].
    destruct u; try contradiction; reflexivity. }
  rewrite E1.
  assert (E2 : take_integer (NilEmpty.string_of_uint u)
               = Some (NilEmpty.string_of_uint u, EmptyString)).
  { destruct u; try contradiction; unfold take_integer;
      simpl NilEmpty.string_of_uint in *; cbv beta iota;
      simpl is_digit; simpl Ascii.eqb; cbv beta iota; now rewrite Hs. }
  rewrite E2. reflexivity.
Qed.

Lemma match_number_str_int (n : Z) :
  match_number (str_int n) = Some (Int n, EmptyString).
Proof.
  unfold str_int. destruct n as [|p|p].
  - reflexivity.
  - pose proof (to_uint_head p) as Hh.
    assert (E : NilZero.string_of_int (Z.to_int (Z.pos p))
                = EmptyString ++ NilEmpty.string_of_uint (Pos.to_uint p)).
    { simpl. destruct (Pos.to_uint p); try contradiction; reflexivity. }
    rewrite E, match_number_digits by auto.
    rewrite <- E, NilZero.isi;
      [ now rewrite DecimalZ.of_to
      | simpl; intros [= H]; now rewrite H in Hh
      | simpl; intros [= H]; now rewrite H in Hh ].
  - pose proof (to_uint_head p) as Hh.
    assert (E : NilZero.string_of_int (Z.to_int (Z.neg p))
                = "-" ++ NilEmpty.string_of_uint (Pos.to_uint p)).
    { simpl. destruct (Pos.to_uint p); try contradiction; reflexivity. }
    rewrite E, match_number_digits by auto.
    rewrite <- E, NilZero.isi;
      [ now rewrite DecimalZ.of_to
      | simpl; intros [= H]; now rewrite H in Hh
      | simpl; intros [= H]; now rewrite H in Hh ].
Qed.

(** The text of a number starts with a digit or with the minus sign. *)
Definition number_start (c : ascii) : bool := is_digit c || Ascii.eqb c "-".

Lemma match_number_start (a : string) (v : value) (rest : string) :
  match_number a = Some (v, rest) ->
  exists c a', a = String c a' /\ number_start c = true.
Proof.
  unfold match_number, take_sign, number_start. destruct a as [|c a].
  - discriminate.
  - intros H. exists c, a. split; [reflexivity|].
    simpl in H. destruct (Ascii.eqb c "-"); [apply orb_true_r|].
    unfold take_integer in H. destruct (is_digit c); [reflexivity|].
    discriminate.
Qed.

Lemma number_start_other (c : ascii) :
  number_start c = true ->
  Ascii.eqb c DQUOTE = false /\ Ascii.eqb c "{" = false
  /\ Ascii.eqb c "[" = false
  /\ c <> "n"%char /\ c <> "t"%char /\ c <> "f"%char.
Proof.
  intros Hc.
  destruct c as [[] [] [] [] [] [] [] []]; try discriminate Hc;
    repeat split; discriminate.
Qed.

Lemma literal_other (x c : ascii) (word s : string) (v : value) :
  c <> x -> literal (String x word) v (String c s) = None.
Proof.
  intros Hne. unfold literal. simpl.
  destruct (ascii_dec x c); [congruence | reflexivity].
Qed.

(** The scanner reads a number before a delimiter. *)
Lemma parse_number (a rest : string) (v : value) (fuel : nat) :
  delimited rest -> match_number a = Some (v, EmptyString) ->
  parse_value (S fuel) (a ++ rest) = Some (v, rest).
Proof.
  intros Hd Hm.
  pose proof (match_number_app a rest v Hd Hm) as Hr.
  destruct (match_number_start _ _ _ Hm) as (c & a' & -> & Hc).
  change (String c a' ++ rest) with (String c (a' ++ rest)) in *.
  destruct (number_start_other c Hc) as (H1 & H2 & H3 & Hn & Ht & Hf).
  cbn [parse_value]. rewrite H1, H2, H3.
  change "null" with (String "n" "ull").
  change "true" with (String "t" "rue").
  change "false" with (String "f" "alse").
  rewrite !literal_other by assumption.
  unfold first_of. now rewrite Hr.
Qed.

(** ** Values *)

Lemma escape_char_length (c : ascii) :
  ascii_char c = true -> 1 <= String.length (escape_char (N_of_ascii c)).
Proof.
  intros Hc.
  destruct c as [[] [] [] [] [] [] [] []]; try discriminate Hc; simpl; lia.
Qed.

Lemma length_escaped (s : string) :
  ascii_str s = true -> String.length s <= String.length (escaped s).
Proof.
  induction s as [|c s IH]; intros Hs; [simpl; lia|].
  rewrite escaped_cons by assumption.
  simpl in Hs. apply andb_prop in Hs. destruct Hs as [Hc Hs].
  rewrite HexFacts.length_append. pose proof (escape_char_length c Hc).
  specialize (IH Hs). simpl. lia.
Qed.

(** A float that is written as a JSON number is none of the three special
    ones. *)
Lemma float_literal_repr (r : string) :
  float_literal r = true ->
  float_repr r = r /\ match_number r = Some (Float r, EmptyString).
Proof.
  unfold float_literal, float_repr. intros H.
  destruct (String.eqb_spec r "nan") as [->|_]; [discriminate H|].
  destruct (String.eqb_spec r "inf") as [->|_]; [discriminate H|].
  destruct (String.eqb_spec r "-inf") as [->|_]; [discriminate H|].
  split; [reflexivity|].
  destruct (match_number r) as [[[] []]|]; try discriminate H.
  apply String.eqb_eq in H. now subst.
Qed.

(** What starts the text of a value: it is not white space, and it closes
    neither an array nor an object. *)
Definition value_start (c : ascii) : bool :=
  negb (is_ws c) && negb (Ascii.eqb c "]") && negb (Ascii.eqb c "}").

Lemma number_value_start (c : ascii) :
  number_start c = true -> value_start c = true.
Proof.
  intros Hc.
  destruct c as [[] [] [] [] [] [] [] []]; try discriminate Hc; reflexivity.
Qed.

Lemma dumps_start (v : value) :
  value_ok v = true ->
  exists c r, dumps v = String c r /\ value_start c = true.
Proof.
  destruct v as [|[]|n|r|s|l|d]; intros Hok; simpl;
    try (do 2 eexists; split; [reflexivity | reflexivity]).
  - destruct (match_number_start _ _ _ (match_number_str_int n))
      as (c & a & E & Hc).
    exists c, a. split; [assumption | now apply number_value_start].
  - simpl in Hok. destruct (float_literal_repr r Hok) as [-> Hm].
    destruct (match_number_start _ _ _ Hm) as (c & a & E & Hc).
    exists c, a. split; [assumption | now apply number_value_start].
Qed.

Lemma value_start_skip_ws (c : ascii) (r : string) :
  value_start c = true -> skip_ws (String c r) = String c r.
Proof.
  unfold value_start. intros H. simpl.
  destruct (is_ws c); [discriminate | reflexivity].
Qed.

Lemma skip_ws_dumps (v : value) (rest : string) :
  value_ok v = true -> skip_ws (dumps v ++ rest) = dumps v ++ rest.
Proof.
  intros Hok. destruct (dumps_start v Hok) as (c & r & -> & Hc).
  now apply value_start_skip_ws.
Qed.

(** The scanner reads a string between its quotes. *)
Lemma parse_string (s rest : string) (fuel : nat) :
  ascii_str s = true ->
  parse_value (S fuel) (encode_basestring_ascii s ++ rest) = Some (Str s, rest).
Proof.
  intros Hs. unfold encode_basestring_ascii. fold (escaped s).
  change (String DQUOTE (escaped s ++ String DQUOTE EmptyString) ++ rest)
    with (String DQUOTE ((escaped s ++ String DQUOTE EmptyString) ++ rest)).
  rewrite StrFacts.append_assoc.
  change (String DQUOTE EmptyString ++ rest) with (String DQUOTE rest).
  cbn [parse_value]. rewrite Ascii.eqb_refl.
  rewrite scan_escaped; [reflexivity | assumption |].
  rewrite HexFacts.length_append. pose proof (length_escaped s Hs).
  simpl. lia.
Qed.

Lemma prefix_app (word rest : string) : prefix word (word ++ rest) = true.
Proof.
  induction word as [|c word IH]; simpl; [now destruct rest|].
  destruct (ascii_dec c c); [assumption | congruence].
Qed.

Lemma skipn_str_app (word rest : string) :
  skipn_str (String.length word) (word ++ rest) = rest.
Proof. induction word as [|c word IH]; simpl; [reflexivity | assumption]. Qed.

Lemma literal_app (word rest : string) (v : value) :
  literal word v (word ++ rest) = Some (v, rest).
Proof. unfold literal. now rewrite prefix_app, skipn_str_app. Qed.

(** The scanner reads one of the three words. *)
Lemma parse_word (word rest : string) (v : value) (fuel : nat) :
  (word = "null" /\ v = Null) \/ (word = "true" /\ v = Bool true)
  \/ (word = "false" /\ v = Bool false) ->
  parse_value (S fuel) (word ++ rest) = Some (v, rest).
Proof.
  intros [[-> ->]|[[-> ->]|[-> ->]]].
  - cbn [parse_value append]. simpl Ascii.eqb. cbv beta iota.
    change (String "n" (String "u" (String "l" (String "l" rest))))
      with ("null" ++ rest).
    now rewrite literal_app.
  - cbn [parse_value append]. simpl Ascii.eqb. cbv beta iota.
    change "null" with (String "n" "ull").
    rewrite literal_other by discriminate.
    change (String "t" (String "r" (String "u" (String "e" rest))))
      with ("true" ++ rest).
    now rewrite literal_app.
  - cbn [parse_value append]. simpl Ascii.eqb. cbv beta iota.
    change "null" with (String "n" "ull").
    change "true" with (String "t" "rue").
    rewrite !literal_other by discriminate.
    change (String "f" (String "a" (String "l" (String "s" (String "e" rest)))))
      with ("false" ++ rest).
    now rewrite literal_app.
Qed.

(** The scanner reads a value that is no container. *)
Lemma parse_scalar (v : value) (rest : string) (fuel : nat) :
  match v with Arr _ | Obj _ => False | _ => True end ->
  value_ok v = true -> delimited rest ->
  parse_value (S fuel) (dumps v ++ rest) = Some (v, rest).
Proof.
  destruct v as [|[]|n|r|s|l|d]; intros Hv Hok Hd; try contradiction.
  - apply parse_word. auto.
  - apply parse_word. auto.
  - apply parse_word. auto.
  - apply parse_number; [assumption | apply match_number_str_int].
  - simpl in Hok. destruct (float_literal_repr r Hok) as [E Hm].
    simpl. rewrite E. now apply parse_number.
  - now apply parse_string.
Qed.

(** ** Arrays and objects *)

(** The text of the elements of an array after its opening bracket, and of
    the members of an object after the opening quote of its first key, up
    to the end of the container and what follows it. *)
Fixpoint elements_text (x : value) (l : list value) (rest : string) : string :=
  dumps x ++
    match l with
    | [] => String "]" rest
    | y :: l' => String "," (String " " (elements_text y l' rest))
    end.

Fixpoint members_text (k : string) (x : value) (d : PyDict.t value)
         (rest : string) : string :=
  escaped k ++
    String DQUOTE
      (String ":" (String " "
         (dumps x ++
            match d with
            | [] => String "}" rest
            | (k', y) :: d' =>
                String "," (String " " (String DQUOTE (members_text k' y d' rest)))
            end))).

Lemma concat_elements (l : list value) (x : value) (rest : string) :
  String.concat ", " (map dumps (x :: l)) ++ String "]" rest
  = elements_text x l rest.
Proof.
  revert x. induction l as [|y l IH]; intros x; [reflexivity|].
  change (String.concat ", " (map dumps (x :: y :: l)))
    with (dumps x ++ ", " ++ String.concat ", " (map dumps (y :: l))).
  rewrite !StrFacts.append_assoc, IH. reflexivity.
Qed.

Lemma dumps_Arr_cons (x : value) (l : list value) (rest : string) :
  dumps (Arr (x :: l)) ++ rest = String "[" (elements_text x l rest).
Proof.
  change (dumps (Arr (x :: l)))
    with ("[" ++ String.concat ", " (map dumps (x :: l)) ++ "]").
  cbn [append]. f_equal. rewrite StrFacts.append_assoc.
  apply concat_elements.
Qed.

Definition member (kv : string * value) : string :=
  match kv with
  | (k, x) => encode_basestring_ascii k ++ ": " ++ dumps x
  end.

Lemma concat_members (d : PyDict.t value) (k : string) (x : value)
      (rest : string) :
  String.concat ", " (map member ((k, x) :: d)) ++ String "}" rest
  = String DQUOTE (members_text k x d rest).
Proof.
  revert k x. induction d as [|[k' y] d IH]; intros k x.
  - cbn [map String.concat member members_text].
    unfold encode_basestring_ascii. fold (escaped k).
    cbn [append]. f_equal. now rewrite !StrFacts.append_assoc.
  - change (String.concat ", " (map member ((k, x) :: (k', y) :: d)))
      with (member (k, x) ++ ", "
              ++ String.concat ", " (map member ((k', y) :: d))).
    rewrite !StrFacts.append_assoc, IH.
    cbn [members_text member]. unfold encode_basestring_ascii.
    fold (escaped k). cbn [append]. f_equal.
    now rewrite !StrFacts.append_assoc.
Qed.

Lemma dumps_Obj_cons (k : string) (x : value) (d : PyDict.t value)
      (rest : string) :
  dumps (Obj ((k, x) :: d)) ++ rest
  = String "{" (String DQUOTE (members_text k x d rest)).
Proof.
  change (dumps (Obj ((k, x) :: d)))
    with ("{" ++ String.concat ", " (map member ((k, x) :: d)) ++ "}").
  cbn [append]. f_equal. rewrite StrFacts.append_assoc.
  apply concat_members.
Qed.

Lemma in_list_sum {A} (f : A -> nat) (x : A) (l : list A) :
  In x l -> f x <= list_sum (map f l).
Proof.
  induction l as [|y l IH]; simpl; [tauto|].
  intros [->|H]; [lia|]. specialize (IH H). lia.
Qed.

Lemma delimited_comma s : delimited (String "," s).
Proof. reflexivity. Qed.

Lemma delimited_bracket s : delimited (String "]" s).
Proof. reflexivity. Qed.

Lemma delimited_brace s : delimited (String "}" s).
Proof. reflexivity. Qed.

Lemma skip_ws_comma s : skip_ws (String "," s) = String "," s.
Proof. reflexivity. Qed.

Lemma skip_ws_colon s : skip_ws (String ":" s) = String ":" s.
Proof. reflexivity. Qed.

Lemma skip_ws_quote s : skip_ws (String DQUOTE s) = String DQUOTE s.
Proof. reflexivity. Qed.

Lemma skip_ws_space s : skip_ws (String " " s) = skip_ws s.
Proof. reflexivity. Qed.

Section Containers.

(** The scanner reads the values of size [n] at most. *)
Variable n : nat.

Hypothesis parse_small :
  forall v, size v <= n -> value_ok v = true ->
  forall fuel rest, 2 * size v <= fuel -> delimited rest ->
  parse_value fuel (dumps v ++ rest) = Some (v, rest).

Lemma parse_elements_text (l : list value) :
  forall x acc fuel rest,
    (forall y, In y (x :: l) -> size y <= n /\ value_ok y = true) ->
    2 * list_sum (map size (x :: l)) + 1 <= fuel ->
    parse_elements fuel (elements_text x l rest) acc
    = Some (Arr (acc ++ x :: l), rest).
Proof.
  induction l as [|y l IH]; intros x acc fuel rest Hin Hf.
  - destruct fuel as [|fuel]; [simpl in Hf; lia|].
    destruct (Hin x (or_introl eq_refl)) as [Hx Hok].
    cbn [parse_elements elements_text].
    rewrite parse_small;
      [| assumption | assumption | simpl in Hf; lia | apply delimited_bracket].
    reflexivity.
  - destruct fuel as [|fuel]; [simpl in Hf; lia|].
    destruct (Hin x (or_introl eq_refl)) as [Hx Hok].
    destruct (Hin y (or_intror (or_introl eq_refl))) as [Hy Hoky].
    cbn [parse_elements elements_text].
    rewrite parse_small;
      [| assumption | assumption | simpl in Hf; lia | apply delimited_comma].
    assert (Hs : skip_ws (elements_text y l rest) = elements_text y l rest).
    { destruct l; cbn [elements_text]; now apply skip_ws_dumps. }
    rewrite skip_ws_comma. cbv beta iota. simpl Ascii.eqb. cbv beta iota.
    rewrite skip_ws_space, Hs, IH.
    + now rewrite <- app_assoc.
    + intros z Hz. apply Hin. now right.
    + simpl in Hf. simpl. pose proof (Nat.le_0_l (size x)).
      destruct x; simpl in Hf; lia.
Qed.

Lemma parse_members_text (d : PyDict.t value) :
  forall k x acc fuel rest,
    (forall k' y, In (k', y) ((k, x) :: d) ->
                  ascii_str k' = true /\ size y <= n /\ value_ok y = true) ->
    2 * list_sum (map (fun kv => match kv with (_, y) => size y end)
                      ((k, x) :: d)) + 1 <= fuel ->
    parse_members fuel (members_text k x d rest) acc
    = Some (Obj (PyDict.update acc ((k, x) :: d)), rest).
Proof.
  induction d as [|[k' y] d IH]; intros k x acc fuel rest Hin Hf;
    (destruct fuel as [|fuel]; [simpl in Hf; lia|]);
    destruct (Hin k x (or_introl eq_refl)) as (Hk & Hx & Hok);
    cbn [parse_members members_text];
    (rewrite scan_escaped;
     [| assumption
      | rewrite HexFacts.length_append; pose proof (length_escaped k Hk);
        simpl; lia ]);
    rewrite skip_ws_colon; cbn [expect]; simpl Ascii.eqb; cbv beta iota;
    rewrite skip_ws_space.
  - rewrite skip_ws_dumps by assumption.
    rewrite parse_small;
      [| assumption | assumption | simpl in Hf; lia | apply delimited_brace].
    reflexivity.
  - rewrite skip_ws_dumps by assumption.
    rewrite parse_small;
      [| assumption | assumption | simpl in Hf; lia | apply delimited_comma].
    rewrite skip_ws_comma. cbv beta iota. simpl Ascii.eqb. cbv beta iota.
    rewrite skip_ws_space, skip_ws_quote. simpl Ascii.eqb. cbv beta iota.
    rewrite IH.
    + reflexivity.
    + intros k2 z Hz. apply Hin. now right.
    + simpl in Hf. simpl. destruct x; simpl in Hf; lia.
Qed.

End Containers.

(** ** The round trip *)

Lemma size_pos (v : value) : 1 <= size v.
Proof. destruct v; simpl; lia. Qed.

Lemma nodupb_NoDup (l : list string) : nodupb l = true -> NoDup l.
Proof.
  induction l as [|k l IH]; simpl; [constructor|].
  intros H. apply andb_prop in H. destruct H as [Hk Hl].
  constructor; [|now apply IH].
  intros Hin. apply negb_true_iff in Hk.
  assert (existsb (String.eqb k) l = true); [|congruence].
  apply existsb_exists. exists k. split; [assumption | apply String.eqb_refl].
Qed.

Lemma value_ok_Obj (d : PyDict.t value) :
  value_ok (Obj d) = true ->
  PyDict.wf d
  /\ forall k x, In (k, x) d -> ascii_str k = true /\ value_ok x = true.
Proof.
  cbn [value_ok]. intros H. apply andb_prop in H. destruct H as [Hall Hnd].
  split; [now apply nodupb_NoDup|].
  intros k x Hin. rewrite forallb_forall in Hall.
  specialize (Hall _ Hin). cbv beta iota in Hall. now apply andb_prop in Hall.
Qed.

Lemma value_ok_Arr (l : list value) :
  value_ok (Arr l) = true -> forall x, In x l -> value_ok x = true.
Proof. cbn [value_ok]. intros H. now apply forallb_forall. Qed.

(** The scanner reads back the text of a value, and leaves what follows
    it. *)
Lemma parse_dumps (n : nat) :
  forall v, size v <= n -> value_ok v = true ->
  forall fuel rest, 2 * size v <= fuel -> delimited rest ->
  parse_value fuel (dumps v ++ rest) = Some (v, rest).
Proof.
  induction n as [|n IHn]; intros v Hs Hok fuel rest Hf Hd.
  - pose proof (size_pos v). lia.
  - destruct fuel as [|fuel]; [pose proof (size_pos v); lia|].
    destruct v as [|b|z|r|s|l|d];
      try (apply parse_scalar; [exact I | assumption | assumption]).
    + destruct l as [|x l].
      * change (dumps (Arr [])) with "[]". cbn [append parse_value].
        simpl Ascii.eqb. cbv beta iota.
        rewrite (delimited_skip_ws (String "]" rest)) by reflexivity.
        reflexivity.
      * rewrite dumps_Arr_cons. cbn [parse_value].
        simpl Ascii.eqb. cbv beta iota.
        assert (Hall : forall y, In y (x :: l) ->
                                 size y <= n /\ value_ok y = true).
        { intros y Hy. split; [|now apply (value_ok_Arr _ Hok)].
          pose proof (in_list_sum size y (x :: l) Hy).
          cbn [size] in Hs. lia. }
        destruct (dumps_start x (proj2 (Hall x (or_introl eq_refl))))
          as (c & t & Ex & Hc).
        assert (Et : exists t', elements_text x l rest = String c t').
        { destruct l; cbn [elements_text]; rewrite Ex; eexists; reflexivity. }
        destruct Et as [t' Et]. rewrite Et.
        rewrite value_start_skip_ws by assumption.
        unfold value_start in Hc.
        destruct (Ascii.eqb c "]"); [now rewrite andb_false_r in Hc|].
        rewrite <- Et. rewrite (parse_elements_text n IHn).
        -- reflexivity.
        -- assumption.
        -- cbn [size] in Hf. lia.
    + destruct d as [|[k x] d].
      * change (dumps (Obj [])) with "{}". cbn [append parse_value].
        simpl Ascii.eqb. cbv beta iota.
        rewrite (delimited_skip_ws (String "}" rest)) by reflexivity.
        reflexivity.
      * destruct (value_ok_Obj _ Hok) as [Hwf Hall].
        rewrite dumps_Obj_cons. cbn [parse_value].
        simpl Ascii.eqb. cbv beta iota.
        rewrite skip_ws_quote. simpl Ascii.eqb. cbv beta iota.
        rewrite (parse_members_text n IHn).
        -- now rewrite PyDictFacts.update_empty.
        -- intros k' y Hy. destruct (Hall _ _ Hy) as [H1 H2].
           repeat split; try assumption.
           pose proof (in_list_sum
                         (fun kv : string * value =>
                            match kv with (_, z) => size z end)
                         (k', y) ((k, x) :: d) Hy) as Hle.
           cbn [size] in Hs. cbv beta iota in Hle. lia.
        -- cbn [size] in Hf. lia.
Qed.

Lemma length_concat (sep : string) (l : list string) :
  list_sum (map String.length l) <= String.length (String.concat sep l).
Proof.
  induction l as [|a l IH]; [simpl; lia|].
  destruct l as [|b l].
  - simpl. lia.
  - change (String.concat sep (a :: b :: l))
      with (a ++ sep ++ String.concat sep (b :: l)).
    rewrite !HexFacts.length_append.
    change (list_sum (map String.length (a :: b :: l)))
      with (String.length a + list_sum (map String.length (b :: l))).
    lia.
Qed.

Lemma list_sum_le {A} (f g : A -> nat) (l : list A) :
  (forall x, In x l -> f x <= g x) ->
  list_sum (map f l) <= list_sum (map g l).
Proof.
  induction l as [|a l IH]; intros H; simpl; [lia|].
  pose proof (H a (or_introl eq_refl)).
  assert (list_sum (map f l) <= list_sum (map g l))
    by (apply IH; intros; apply H; now right).
  lia.
Qed.

(** A text is at least as long as the value it writes has values. *)
Lemma size_le_length (n : nat) :
  forall v, size v <= n -> value_ok v = true ->
  size v <= String.length (dumps v).
Proof.
  induction n as [|n IHn]; intros v Hs Hok.
  - pose proof (size_pos v). lia.
  - destruct v as [|b|z|r|s|l|d];
      try (destruct (dumps_start _ Hok) as (c & t & -> & _); simpl; lia).
    + change (dumps (Arr l))
        with ("[" ++ String.concat ", " (map dumps l) ++ "]").
      rewrite !HexFacts.length_append.
      pose proof (length_concat ", " (map dumps l)) as Hc.
      rewrite map_map in Hc.
      assert (list_sum (map size l)
              <= list_sum (map (fun x => String.length (dumps x)) l)).
      { apply list_sum_le. intros x Hx. apply IHn.
        - pose proof (in_list_sum size x l Hx). cbn [size] in Hs. lia.
        - now apply (value_ok_Arr _ Hok). }
      cbn [size]. simpl String.length. lia.
    + destruct (value_ok_Obj _ Hok) as [_ Hall].
      change (dumps (Obj d))
        with ("{" ++ String.concat ", " (map member d) ++ "}").
      rewrite !HexFacts.length_append.
      pose proof (length_concat ", " (map member d)) as Hc.
      rewrite map_map in Hc.
      assert (list_sum (map (fun kv : string * value =>
                               match kv with (_, x) => size x end) d)
              <= list_sum (map (fun kv => String.length (member kv)) d)).
      { apply list_sum_le. intros [k x] Hx.
        unfold member. rewrite !HexFacts.length_append.
        assert (size x <= String.length (dumps x)); [|lia].
        apply IHn.
        - pose proof (in_list_sum
                        (fun kv : string * value =>
                           match kv with (_, z) => size z end)
                        (k, x) d Hx) as Hle.
          cbn [size] in Hs. cbv beta iota in Hle. lia.
        - now apply (Hall k x). }
      cbn [size]. simpl String.length. lia.
Qed.

(** [json.loads] reads back what [json.dumps] wrote. *)
Lemma loads_dumps (v : value) :
  value_ok v = true -> loads (dumps v) = Some v.
Proof.
  intros Hok. unfold loads.
  pose proof (skip_ws_dumps v EmptyString Hok) as Hs.
  rewrite StrFacts.append_nil_r in Hs. rewrite Hs.
  pose proof (parse_dumps (size v) v (le_n _) Hok
                (2 * String.length (dumps v) + 2) EmptyString) as Hp.
  rewrite StrFacts.append_nil_r in Hp. rewrite Hp; [reflexivity| |exact I].
  pose proof (size_le_length (size v) v (le_n _) Hok). lia.
Qed.

(** X8. [json.loads] reads back what [json.dumps] wrote, for the values
    made of ASCII strings, integers, booleans, [None], floats written as
    JSON numbers, lists, and dictionaries with no key twice: the signer
    reads from the prepared body the mapping that the caller gave. *)
Theorem X8_loads_dumps (v : value) :
  value_ok v = true -> loads (dumps v) = Some v.
Proof. apply loads_dumps. Qed.

End RoundTrip.

(** * The requests of the methods that send a body *)

Module MethodFacts.

Import Py Requests YP Obs ClientFacts RoundTrip.

Section Properties.

Variable repr_container : Json.value -> string.

Local Abbreviation _request := (_request repr_container).
Local Abbreviation _post := (_post repr_container).
Local Abbreviation _delete := (_delete repr_container).

(** The signer reads from the body of a request the mapping it was made
    with. *)
Lemma body_fields_params method url (d : PyDict.t Json.value) :
  value_ok (Json.Obj d) = true ->
  body_fields (new_Request method url (mkKwargs None (Some (Json.Obj d))))
              (Some d).
Proof.
  intros Hok. apply body_fields_json with (j := Json.Obj d);
    [reflexivity | now apply loads_dumps].
Qed.

(** A call with a body, on a client with a key and a secret. *)
Lemma signed_call_run self secret method path (params : PyDict.t Json.value) w :
  key_configured self -> _api_secret self = Some secret ->
  value_ok (Json.Obj params) = true ->
  let kw := mkKwargs None (Some (Json.Obj params)) in
  let p := prepare (signed_request repr_container self secret (clock w)
                      (Some params)
                      (new_Request method (_base_url self ++ path) kw)) in
  _request self method path kw w = (answer self w p, after_send w p).
Proof.
  intros Hk Hs Hok kw p.
  apply request_signed; [assumption|].
  apply sign_ok; [assumption | now apply body_fields_params].
Qed.


(** The request that a signed POST of [path] sends, with the text that is
    signed and the text of the body written out. *)
Definition signed_post (self : YPClient) (secret path signed_text body : string)
  : PreparedRequest :=
  mkPrepared
    "POST" (_base_url self ++ path) None
    [("content-Type", Some "application/json");
     ("apiKey", _api_key self);
     ("hmac", Some (Hmac.hexdigest (encode secret) (encode signed_text)))]
    (Some body).

Lemma signed_post_run self secret path params signed_text body w :
  key_configured self -> _api_secret self = Some secret ->
  value_ok (Json.Obj params) = true ->
  canonical_str repr_container (signature_payload (clock w) (Some params))
  = signed_text ->
  Json.dumps (Json.Obj (signature_payload (clock w) (Some params))) = body ->
  _post self path (Some params) w
  = (answer self w (signed_post self secret path signed_text body),
     after_send w (signed_post self secret path signed_text body)).
Proof.
  intros Hk Hs Hok <- <-.
  apply (signed_call_run self secret "POST" path params w Hk Hs Hok).
Qed.




End Properties.

End MethodFacts.

(** * The payload: the order of its keys, and the order of the fields *)

Module PayloadFacts.

Import Py PyDict YP Obs.

Lemma mem_set {V} (k k' : string) (v : V) (d : t V) :
  mem k' (set k v d) = String.eqb k' k || mem k' d.
Proof.
  unfold mem. destruct (String.eqb_spec k' k) as [->|Hne]; simpl.
  - now rewrite PyDictFacts.get_set_same.
  - now rewrite PyDictFacts.get_set_other.
Qed.

(** [update] keeps the keys that are there in their places and appends the
    new ones in the order of the argument. *)
Lemma keys_update {V} (other d : t V) :
  wf other ->
  keys (update d other)
  = (keys d ++ filter (fun k => negb (mem k d)) (keys other))%list.
Proof.
  unfold update, wf. revert d.
  induction other as [|[k v] o IH]; intros d Hnd; simpl.
  - now rewrite List.app_nil_r.
  - inversion Hnd as [|? ? Hni Hnd']; subst.
    rewrite IH by assumption. rewrite PyDictFacts.keys_set.
    assert (Hf : filter (fun k' => negb (mem k' (set k v d))) (keys o)
                 = filter (fun k' => negb (mem k' d)) (keys o)).
    { apply filter_ext_in. intros k' Hk'. rewrite mem_set.
      destruct (String.eqb_spec k' k) as [->|_]; [contradiction | reflexivity]. }
    rewrite Hf. destruct (mem k d); simpl; [reflexivity|].
    now rewrite <- List.app_assoc.
Qed.

Section Properties.

Variable repr_container : Json.value -> string.

(** X13. Whatever the body holds, the payload starts with [recvWindow] and
    [timestamp], in this order, followed by the other keys of the body in
    the order of the body: so does the JSON body that is sent. *)
Theorem X13_payload_key_order (ts : Z) (b : t Json.value) :
  wf b ->
  keys (signature_payload ts (Some b))
  = "recvWindow" :: "timestamp"
      :: filter (fun k => negb (String.eqb k "recvWindow")
                          && negb (String.eqb k "timestamp"))
                (keys b).
Proof.
  intros Hwf. unfold signature_payload. rewrite keys_update by assumption.
  cbn [keys map fst app]. do 2 f_equal.
  apply filter_ext. intros k. unfold mem. cbn [get].
  destruct (String.eqb k "recvWindow"); [reflexivity|].
  now destruct (String.eqb k "timestamp").
Qed.

Lemma ltb_irrefl (a : string) : String.ltb a a = false.
Proof. unfold String.ltb. now rewrite StrFacts.compare_refl. Qed.

Lemma ltb_asym (a b : string) :
  String.ltb a b = true -> String.ltb b a = false.
Proof.
  unfold String.ltb. rewrite (String.compare_antisym a b).
  now destruct (String.compare b a).
Qed.

(** Two lists of items in strictly ascending order of key that hold the
    same items are the same list. *)
Lemma sorted_ext (l1 l2 : list (string * Json.value)) :
  StronglySorted key_lt l1 -> StronglySorted key_lt l2 ->
  (forall x, In x l1 <-> In x l2) -> l1 = l2.
Proof.
  intros H1. revert l2.
  induction H1 as [|a l1 Hs1 IH Ha]; intros l2 H2 Hin.
  - destruct l2 as [|b l2]; [reflexivity|].
    exfalso. apply (Hin b). now left.
  - destruct H2 as [|b l2 Hs2 Hb].
    { exfalso. apply (Hin a). now left. }
    rewrite Forall_forall in Ha, Hb.
    assert (Hab : a = b).
    { destruct (proj1 (Hin a) (or_introl eq_refl)) as [E|Ha2]; [now symmetry|].
      destruct (proj2 (Hin b) (or_introl eq_refl)) as [E|Hb1]; [assumption|].
      pose proof (Ha _ Hb1) as L1. pose proof (Hb _ Ha2) as L2.
      unfold key_lt in *. apply ltb_asym in L1. congruence. }
    subst b. f_equal. apply IH; [assumption|].
    intros x. split; intros Hx.
    + destruct (proj1 (Hin x) (or_intror Hx)) as [E|Hx2]; [|assumption].
      subst x. pose proof (Ha _ Hx) as L. unfold key_lt in L.
      now rewrite ltb_irrefl in L.
    + destruct (proj2 (Hin x) (or_intror Hx)) as [E|Hx1]; [|assumption].
      subst x. pose proof (Hb _ Hx) as L. unfold key_lt in L.
      now rewrite ltb_irrefl in L.
Qed.

Lemma In_payload_iff ts (b : t Json.value) k v :
  wf b ->
  In (k, v) (signature_payload ts (Some b))
  <-> match get k b with
      | Some v' => v' = v
      | None => get k (fixed_fields ts) = Some v
      end.
Proof.
  intros Hwf.
  pose proof (SigFacts.wf_signature_payload ts (Some b)) as Hp.
  assert (Hg : get k (signature_payload ts (Some b))
               = match get k b with
                 | Some v' => Some v'
                 | None => get k (fixed_fields ts)
                 end)
    by (unfold signature_payload; now rewrite PyDictFacts.get_update).
  split.
  - intros Hin. apply (PyDictFacts.In_get _ _ _ Hp) in Hin.
    rewrite Hg in Hin. destruct (get k b); congruence.
  - intros H. apply PyDictFacts.get_In. rewrite Hg.
    destruct (get k b); congruence.
Qed.

(** X14. The text that is signed does not depend on the order in which the
    body lists its fields: two bodies that hold the same value under every
    key give the same text, hence the same digest. *)
Theorem X14_signed_text_ignores_field_order (ts : Z) (b1 b2 : t Json.value) :
  wf b1 -> wf b2 ->
  (forall k, get k b1 = get k b2) ->
  signature_payload_ordered_str repr_container
    (signature_payload ts (Some b1))
  = signature_payload_ordered_str repr_container
      (signature_payload ts (Some b2)).
Proof.
  intros H1 H2 Hsame.
  rewrite !SigFacts.signature_payload_ordered_str_spec
    by apply SigFacts.wf_signature_payload.
  unfold canonical_str. f_equal. f_equal.
  apply sorted_ext.
  - apply SortFacts.sort_strict, SigFacts.wf_signature_payload.
  - apply SortFacts.sort_strict, SigFacts.wf_signature_payload.
  - intros [k v].
    assert (Hp : forall b, In (k, v) (ItemSort.sort (signature_payload ts (Some b)))
                           <-> In (k, v) (signature_payload ts (Some b))).
    { intros b. split; apply Permutation_in;
        [apply Permutation_sym|]; apply ItemSort.Permuted_sort. }
    rewrite !Hp, !In_payload_iff by assumption. now rewrite Hsame.
Qed.

(** X15. A response whose body is empty or blank is never returned as
    data: the call raises, the HTTP error when the status tells a failure
    and the parse error otherwise. *)
Theorem X15_blank_response_raises (response : Requests.Response) :
  Json.skip_ws (Requests.content response) = EmptyString ->
  _process_response response
  = if failure_status response
    then Raise (HTTPError (Requests.status_code response))
    else Raise (JSONDecodeError "Expecting value").
Proof.
  intros Hb.
  assert (Hl : Json.loads (Requests.content response) = None).
  { unfold Json.loads. rewrite Hb.
    now destruct (2 * String.length (Requests.content response) + 2). }
  unfold _process_response, Requests.Response_json,
    Requests.raise_for_status, failure_status.
  rewrite Hl. simpl. now destruct (_ && _)%bool.
Qed.

End Properties.

End PayloadFacts.

(** * What no request depends on, and what the signed text tells *)

Module Independence.

Import Py Requests YP Obs.

Lemma to_int_not_nil (n : Z) :
  Z.to_int n <> Decimal.Pos Decimal.Nil
  /\ Z.to_int n <> Decimal.Neg Decimal.Nil.
Proof.
  destruct n as [|p|p]; simpl; split; try discriminate;
    intros [= H]; now apply (DecimalPos.Unsigned.to_uint_nonnil p).
Qed.

(** [str] tells two integers apart. *)
Lemma str_int_inj (n m : Z) : str_int n = str_int m -> n = m.
Proof.
  unfold str_int. intros H.
  apply (f_equal NilZero.int_of_string) in H.
  destruct (to_int_not_nil n) as [Hn1 Hn2].
  destruct (to_int_not_nil m) as [Hm1 Hm2].
  rewrite !NilZero.isi in H by assumption.
  injection H as H. now apply DecimalZ.to_int_inj.
Qed.

Section Properties.

Variable repr_container : Json.value -> string.

(** X16. The subaccount name is never read: two clients that differ in it
    only behave the same in [_request], and so in every public method, all
    of which go through [_request] and the check of the key. *)
Theorem X16_subaccount_name_unused
        (session : Session) (base_url : string)
        (api_key api_secret sub1 sub2 : option string)
        (method path : string) (kw : kwargs) (w : world) :
  let self1 := mkClient session base_url api_key api_secret sub1 in
  let self2 := mkClient session base_url api_key api_secret sub2 in
  _request repr_container self1 method path kw w
  = _request repr_container self2 method path kw w
  /\ (forall args,
        place_limit_order repr_container self1 args w
        = place_limit_order repr_container self2 args w)
  /\ (forall args,
        cancel_order repr_container self1 args w
        = cancel_order repr_container self2 args w)
  /\ (forall pair depth,
        get_orderbook repr_container self1 pair depth w
        = get_orderbook repr_container self2 pair depth w).
Proof.
  intros self1 self2.
  assert (Hs : forall request w0,
             _sign_request repr_container self1 request w0
             = _sign_request repr_container self2 request w0)
    by reflexivity.
  assert (Hr : forall m p k w0,
             _request repr_container self1 m p k w0
             = _request repr_container self2 m p k w0).
  { intros m p k w0. unfold _request, bind.
    change (_base_url self1) with (_base_url self2).
    change (_api_key self1) with (_api_key self2).
    change (_session self1) with (_session self2).
    destruct (truthy_opt (_api_key self2)); [|reflexivity].
    now rewrite Hs. }
  split; [apply Hr|].
  unfold place_limit_order, cancel_order, get_orderbook,
    authentication_required, _post, _get.
  cbn [_api_key self1 self2].
  repeat split; intros;
    repeat match goal with
      | |- context [let '(_, _) := ?a in _] => destruct a
      end;
    try destruct (negb _); try reflexivity; apply Hr.
Qed.

(** X17. For a call with no body the signed text tells the time: two
    calls at different seconds sign different texts. *)
Theorem X17_signed_text_tells_timestamp (ts1 ts2 : Z) :
  ts1 <> ts2 ->
  signature_payload_ordered_str repr_container (signature_payload ts1 None)
  <> signature_payload_ordered_str repr_container (signature_payload ts2 None).
Proof.
  intros Hne Heq. apply Hne. revert Heq.
  rewrite !SigFacts.signature_payload_ordered_str_spec
    by apply SigFacts.wf_signature_payload.
  change (canonical_str repr_container (signature_payload ts1 None))
    with ("recvWindow=10&timestamp=" ++ str_int ts1).
  change (canonical_str repr_container (signature_payload ts2 None))
    with ("recvWindow=10&timestamp=" ++ str_int ts2).
  intros H. simpl in H. injection H as H. now apply str_int_inj.
Qed.

End Properties.

End Independence.

(** * The further properties at concrete inputs *)

Module ExtraWitness.

Import Py Requests YP Obs ClientFacts Demo RoundTrip.
Import Extras MethodFacts PayloadFacts.

Definition no_kwargs : kwargs := mkKwargs None None.

(** A value with every kind of JSON value in it. *)
Definition sample : Json.value :=
  Json.Obj
    [("pair", Json.Str "BTC-EUR");
     ("quote", Json.Str (dq "say 'hi'\ "));
     ("levels", Json.Arr [Json.Int (-3); Json.Float "1.5e-07"; Json.Null;
                          Json.Bool true; Json.Arr []; Json.Obj []]);
     ("nested", Json.Obj [("a", Json.Int 0); ("b", Json.Bool false)])].

Definition ab : PyDict.t Json.value :=
  [("a", Json.Int 1); ("b", Json.Int 2)].

Definition ba : PyDict.t Json.value :=
  [("b", Json.Int 2); ("a", Json.Int 1)].

Definition blank_failure : Response := mkResponse 500 "  ".

Lemma X2_witness :
  exists p,
    dispatched noon
      (snd (_request repr_container trader "GET" "markets" no_kwargs noon)) p
    /\ answer trader noon p = Ok (Json.Obj [("ok", Json.Bool true)]).
Proof.
  apply (X2_data_means_one_call repr_container trader "GET" "markets"
           no_kwargs noon).
  vm_compute. reflexivity.
Defined.





Lemma X8_witness : Json.loads (Json.dumps sample) = Some sample.
Proof. apply (X8_loads_dumps sample). vm_compute. reflexivity. Defined.





Lemma X13_witness :
  PyDict.keys (signature_payload 1700000000 (Some cancel_body))
  = ["recvWindow"; "timestamp"; "side"; "orderId"].
Proof.
  refine (X13_payload_key_order 1700000000 cancel_body _).
  unfold PyDict.wf. simpl. repeat constructor; simpl; intuition discriminate.
Defined.

Lemma X14_witness :
  signature_payload_ordered_str repr_container (signature_payload 5 (Some ab))
  = signature_payload_ordered_str repr_container
      (signature_payload 5 (Some ba)).
Proof.
  apply (X14_signed_text_ignores_field_order repr_container 5 ab ba).
  - unfold PyDict.wf. simpl. repeat constructor; simpl; intuition discriminate.
  - unfold PyDict.wf. simpl. repeat constructor; simpl; intuition discriminate.
  - intros k. simpl.
    destruct (String.eqb_spec k "a") as [->|_]; [reflexivity|].
    reflexivity.
Defined.

Lemma X17_witness :
  signature_payload_ordered_str repr_container
    (signature_payload 1700000000 None)
  <> signature_payload_ordered_str repr_container
       (signature_payload 1700000001 None).
Proof.
  apply (Independence.X17_signed_text_tells_timestamp repr_container
           1700000000 1700000001).
  discriminate.
Defined.

Lemma X15_witness :
  _process_response blank_failure = Raise (HTTPError 500).
Proof.
  apply (X15_blank_response_raises blank_failure). reflexivity.
Defined.

End ExtraWitness.
